(** * Bank Grade Security: the result-aggregation and scoring pipeline

    A shallow embedding of [src/index.js]: the normalizer [processResults]
    (with its inner [parseCsp]), the scorer [calculateScore] /
    [calculateGrade], the ordering [sortCards], and the history archive
    (the end of [createWebsite], which writes the month's snapshot, and
    [getHistory], which reads every snapshot back).

    The program is dynamically typed JavaScript running in sloppy mode, so:
    - data is one type [value] of JSON-like values; an object is the list of
      its own properties, in the order [for ... in] visits them (the rule
      that moves integer-like property names first is not modelled: no
      property below depends on the order of an object's properties);
    - reading a property of [undefined] or [null] throws, so every function
      returns in the monad [res]; a loop is a fold in that monad;
    - an object the code mutates is returned after the mutation
      ([processResults] returns its argument next to its result);
    - strings are sequences of character codes, compared code by code;
    - numbers are exact rationals with [NaN] and the infinities.

    The definitions come first, the properties after them. *)

From Stdlib Require Import List String Ascii Bool ZArith QArith Qround Lia.
From Stdlib Require Import Permutation Sorted DecimalString DecimalNat FinFun Lqa.
From Stdlib Require OrderedTypeEx.
Import ListNotations.

Local Set Warnings "-register-all".
Local Open Scope list_scope.
Local Open Scope string_scope.

(** ** JavaScript values *)

(** Numbers.  A JavaScript number is an IEEE double; here a finite number is
    an exact rational.  The only arithmetic in the program is on counters
    (non-negative integers), a multiplication by 100, a division by a
    counter or by 20, [Math.round] and [Math.floor]: on these operands the
    correctly rounded double quotient and the exact quotient have the same
    [round] and [floor] (the quotient is a multiple of 1/(2*total) away from
    every half-integer, far more than one unit in the last place).  Negative
    zero is identified with zero. *)
Inductive number : Type :=
| NaN
| Inf (negative : bool)
| Fin (q : Q).

(** Values: the data a JSON document or an object literal of the program can
    hold.  An object is the list of its own properties in enumeration
    order; functions and prototype properties are not data and are not
    modelled. *)
Inductive value : Type :=
| VUndef
| VNull
| VBool (b : bool)
| VNum (n : number)
| VStr (s : string)
| VArr (elems : list value)
| VObj (props : list (string * value)).

(** Outcomes: a value, or a thrown exception. *)
Inductive exn : Type := TypeError | SyntaxError | SystemError.

Inductive res (A : Type) : Type :=
| Ok (a : A)
| Throw (e : exn).
Arguments Ok {A} a.
Arguments Throw {A} e.

Definition bind {A B : Type} (c : res A) (k : A -> res B) : res B :=
  match c with
  | Ok a => k a
  | Throw e => Throw e
  end.

Notation "x <- c ;; k" := (bind c (fun x => k))
  (at level 61, c at next level, right associativity).

(** [for (x of l) body], [for (k in o) body]: the body runs once per
    element, threading the local state; an exception leaves the loop. *)
Fixpoint for_each {A S : Type} (l : list A) (body : A -> S -> res S) (s : S)
  : res S :=
  match l with
  | [] => Ok s
  | a :: l' => s' <- body a s ;; for_each l' body s'
  end.

(** *** Numbers *)

Definition of_Z (z : Z) : number := Fin (inject_Z z).

Definition Qis_zero (q : Q) : bool := Qeq_bool q 0.
Definition Qis_neg (q : Q) : bool := negb (Qle_bool 0 q).

(** [a * b] *)
Definition num_mul (a b : number) : number :=
  match a, b with
  | NaN, _ | _, NaN => NaN
  | Inf s, Inf t => Inf (xorb s t)
  | Inf s, Fin q | Fin q, Inf s =>
      if Qis_zero q then NaN else Inf (xorb s (Qis_neg q))
  | Fin p, Fin q => Fin (Qred (p * q))
  end.

(** [a / b] *)
Definition num_div (a b : number) : number :=
  match a, b with
  | NaN, _ | _, NaN => NaN
  | Inf _, Inf _ => NaN
  | Inf s, Fin q => Inf (xorb s (Qis_neg q))
  | Fin _, Inf _ => Fin 0
  | Fin p, Fin q =>
      if Qis_zero q
      then (if Qis_zero p then NaN else Inf (Qis_neg p))
      else Fin (Qred (p / q))
  end.

(** [Math.round]: the nearest integer, ties towards +infinity. *)
Definition Math_round (a : number) : number :=
  match a with
  | Fin q => of_Z (Qfloor (q + (1 # 2)))
  | _ => a
  end.

(** [Math.floor] *)
Definition Math_floor (a : number) : number :=
  match a with
  | Fin q => of_Z (Qfloor q)
  | _ => a
  end.

(** [a < b] and [a <= b] on numbers: false as soon as one side is NaN. *)
Definition num_lt (a b : number) : bool :=
  match a, b with
  | NaN, _ | _, NaN => false
  | Inf s, Inf t => s && negb t
  | Inf s, Fin _ => s
  | Fin _, Inf t => negb t
  | Fin p, Fin q => negb (Qle_bool q p)
  end.

Definition num_le (a b : number) : bool :=
  match a, b with
  | NaN, _ | _, NaN => false
  | Inf s, Inf t => s || negb t
  | Inf s, Fin _ => s
  | Fin _, Inf t => negb t
  | Fin p, Fin q => Qle_bool p q
  end.

(** *** Truthiness and [typeof] *)

Definition truthy (v : value) : bool :=
  match v with
  | VUndef | VNull => false
  | VBool b => b
  | VNum NaN => false
  | VNum (Inf _) => true
  | VNum (Fin q) => negb (Qis_zero q)
  | VStr s => negb (s =? "")
  | VArr _ | VObj _ => true
  end.

Definition typeof (v : value) : string :=
  match v with
  | VUndef => "undefined"
  | VNull => "object"
  | VBool _ => "boolean"
  | VNum _ => "number"
  | VStr _ => "string"
  | VArr _ | VObj _ => "object"
  end.

(** [a && b] and [a || b] return one of their operands. *)
Definition js_and (a : value) (b : res value) : res value :=
  if truthy a then b else Ok a.

Definition js_or (a : value) (b : res value) : res value :=
  if truthy a then Ok a else b.

(** *** Properties *)

(** [Number::toString] on a non-negative integer: its decimal numeral. *)
Definition decimal (n : nat) : string :=
  NilEmpty.string_of_uint (Nat.to_uint n).

(** The property key of array index [i]. *)
Definition index_key (i : nat) : string := decimal i.

Definition index_keys (n : nat) : list string := map index_key (seq 0 n).

Definition chars (s : string) : list value :=
  map (fun c => VStr (String c "")) (list_ascii_of_string s).

(** The enumerable own properties [for ... in] visits, with their values:
    the properties of an object, the elements of an array, the characters
    of a string.  Other primitives, [null] and [undefined] have none. *)
Definition entries (v : value) : list (string * value) :=
  match v with
  | VObj o => o
  | VArr l => combine (index_keys (List.length l)) l
  | VStr s => combine (index_keys (String.length s)) (chars s)
  | _ => []
  end.

Definition keys_of (v : value) : list string := map fst (entries v).

Fixpoint assoc {A : Type} (k : string) (o : list (string * A)) : option A :=
  match o with
  | [] => None
  | (k', x) :: o' => if k' =? k then Some x else assoc k o'
  end.

(** [v[k]] (also written [v.k]): reading a property of [undefined] or
    [null] throws; a missing property reads as [undefined]; arrays and
    strings also have [length]. *)
Definition get (v : value) (k : string) : res value :=
  match v with
  | VUndef | VNull => Throw TypeError
  | _ =>
      match assoc k (entries v) with
      | Some x => Ok x
      | None =>
          if k =? "length" then
            match v with
            | VArr l => Ok (VNum (of_Z (Z.of_nat (List.length l))))
            | VStr s => Ok (VNum (of_Z (Z.of_nat (String.length s))))
            | _ => Ok VUndef
            end
          else Ok VUndef
      end
  end.

(** Writing property [k] of an object: an existing property keeps its place,
    a new one is added last. *)
Fixpoint update {A : Type} (o : list (string * A)) (k : string) (x : A)
  : list (string * A) :=
  match o with
  | [] => [(k, x)]
  | (k', x') :: o' =>
      if k' =? k then (k', x) :: o' else (k', x') :: update o' k x
  end.

(** [v[k] = x], returning the object after the write.  Writing to
    [undefined] or [null] throws; writing to a primitive is silently
    ignored (the program is not in strict mode).  No function of the
    program writes into an array, whose holes and named properties the value
    type does not represent: the array is returned as it is. *)
Definition set (v : value) (k : string) (x : value) : res value :=
  match v with
  | VUndef | VNull => Throw TypeError
  | VObj o => Ok (VObj (update o k x))
  | _ => Ok v
  end.

(** ** Scorer *)

(** The body of the two nested loops of [calculateScore] (index.js
    246-254); [total] and [score] are the counters. *)
Definition scoreMetric (results : value) (category metric : string)
    (st : Z * Z) : res (Z * Z) :=
  let '(total, score) := st in
  c <- get results category ;;
  m <- get c metric ;;
  if typeof m =? "string" then Ok (total, score)
  else
    let total := (total + 1)%Z in
    let score := if truthy m then (score + 1)%Z else score in
    Ok (total, score).

(** [calculateScore] (index.js 238-265). *)
Definition calculateScore (results : value) : res number :=
  st <- for_each (keys_of results) (fun category st =>
          c <- get results category ;;
          for_each (keys_of c) (scoreMetric results category) st)
        (0%Z, 0%Z) ;;
  let '(total, score) := st in
  let score := num_mul (of_Z score) (of_Z 100) in
  let score := num_div score (of_Z total) in
  let score := Math_round score in
  Ok score.

(** Reading an array element by a number: the key [ToString(n)] names an
    element exactly when [n] is an integer within the bounds. *)
Definition index_num (l : list value) (n : number) : value :=
  match n with
  | Fin q =>
      if Qeq_bool q (inject_Z (Qfloor q)) && (0 <=? Qfloor q)%Z
      then nth (Z.to_nat (Qfloor q)) l VUndef
      else VUndef
  | _ => VUndef
  end.

Definition grades : list value :=
  [VStr "E"; VStr "D"; VStr "C"; VStr "B"; VStr "A"; VStr "Z"].

(** [calculateGrade] (index.js 272-277). *)
Definition calculateGrade (score : number) : value :=
  let score := Math_floor (num_div score (of_Z 20)) in
  index_num grades score.

(** ** Result normalizer *)

(** [s.includes(e)] *)
Fixpoint includes (s e : string) : bool :=
  if prefix e s then true
  else match s with
       | EmptyString => false
       | String _ s' => includes s' e
       end.

(** [!v] *)
Definition js_not (v : value) : value := VBool (negb (truthy v)).

(** A chain of property reads, [ref v .> "a" .> "b"] for [v.a.b]. *)
Definition ref (v : value) : res value := Ok v.

Notation "c .> k" := (bind c (fun o => get o k))
  (at level 40, left associativity).

Section Normalizer.

(** Two conversions of the language are left abstract: the decimal
    rendering of a number ([Number::toString]) and the numeric reading of
    a string ([StringToNumber]).  Every result below holds whatever they
    are. *)
Variable Number_toString : number -> string.
Variable StringToNumber : string -> number.

(** [ToString], with the element conversion of [Array.prototype.join]
    ([undefined] and [null] elements give the empty string). *)
Fixpoint ToString (v : value) : string :=
  match v with
  | VUndef => "undefined"
  | VNull => "null"
  | VBool true => "true"
  | VBool false => "false"
  | VNum n => Number_toString n
  | VStr s => s
  | VArr l =>
      concat ","
        (map (fun x => match x with
                       | VUndef | VNull => ""
                       | _ => ToString x
                       end) l)
  | VObj _ => "[object Object]"
  end.

Definition join_element (x : value) : string :=
  match x with
  | VUndef | VNull => ""
  | _ => ToString x
  end.

(** [l.join(sep)] on an array. *)
Definition join (l : list value) (sep : string) : string :=
  concat sep (map join_element l).

(** The method call [v.join(sep)]: only arrays have a [join] method; on a
    string or an object the property is not a function and the call
    throws. *)
Definition call_join (v : value) (sep : string) : res string :=
  match v with
  | VArr l => Ok (join l sep)
  | _ => Throw TypeError
  end.

(** [ToNumber] *)
Definition ToNumber (v : value) : number :=
  match v with
  | VUndef => NaN
  | VNull => of_Z 0
  | VBool true => of_Z 1
  | VBool false => of_Z 0
  | VNum n => n
  | VStr s => StringToNumber s
  | VArr _ | VObj _ => StringToNumber (ToString v)
  end.

(** [parseCsp] (index.js 205-227), the inner function of
    [processResults]; [results] is the variable it captures. *)
Definition parseCsp (results csp : value) : res value :=
  let framingProtection := false in
  fa <- ref csp .> "frame-ancestors" ;;
  cond <- js_and fa (ref csp .> "frame-ancestors" .> "length") ;;
  framingProtection <-
    (if truthy cond then
       let framingProtection := true in
       joined <- (fa <- ref csp .> "frame-ancestors" ;; call_join fa " ") ;;
       let sources := " " ++ joined ++ " " in
       for_each [" data: "; " http: "; " https: "]
         (fun e framingProtection =>
            if includes sources e then Ok false else Ok framingProtection)
         framingProtection
     else Ok framingProtection) ;;
  xssProtection <- ref results .> "contentSecurityPolicy" .> "result" ;;
  xss <- js_or xssProtection (ref results .> "xXssProtection" .> "result") ;;
  framing <- js_or (VBool framingProtection)
               (ref results .> "xFrameOptions" .> "result") ;;
  Ok (VObj [("XSS Protection", xss); ("Framing Protection", framing)]).

(** One entry of the "Miscellaneous Headers" literal (index.js 196-198):
    [bank.results.<check>.result ? "" : bank.results.<check>.data.value]. *)
Definition leaked (bank : value) (check : string) : res value :=
  passed <- ref bank .> "results" .> check .> "result" ;;
  if truthy passed then Ok (VStr "")
  else ref bank .> "results" .> check .> "data" .> "value".

(** [processResults] (index.js 161-231).  [bank] is the global variable
    of that name, which the loop of [createWebsite] sets before the call.
    The function returns [response]; it also writes a property of its
    argument, so the argument after the call is returned with it. *)
Definition processResults (bank results : value) : res (value * value) :=
  let response := VObj [] in
  upgrade <- ref results .> "upgradeToHttps" .> "result" ;;
  redirection <- ref results .> "secureRedirectionChain" .> "result" ;;
  accepts <- ref results .> "accepts" .> "https" ;;
  hsts <- ref results .> "hsts" .> "result" ;;
  hstsLong <-
    (r <- ref results .> "hsts" .> "result" ;;
     js_and r (age <- ref results .> "hsts" .> "data" .> "age" ;;
               Ok (VBool (num_le (of_Z 180) (ToNumber age))))) ;;
  hstsPreloaded <-
    (r <- ref results .> "hsts" .> "result" ;;
     js_and r (ref results .> "hsts" .> "data" .> "preloaded")) ;;
  response <- set response "HTTPS"
    (VObj [("Upgrade HTTP", upgrade);
           ("Secure Redirection", redirection);
           ("Accepts HTTPS", accepts);
           ("HSTS", hsts);
           ("HSTS Long Length", hstsLong);
           ("HSTS Preloaded", hstsPreloaded)]) ;;
  tls13 <- ref results .> "tlsProtocols" .> "data" .> "1.3" ;;
  tls11 <- ref results .> "tlsProtocols" .> "data" .> "1.1" ;;
  tls10 <- ref results .> "tlsProtocols" .> "data" .> "1.0" ;;
  secrecy <- ref results .> "forwardSecrecy" .> "result" ;;
  certificate <- ref results .> "certificate" .> "result" ;;
  response <- set response "TLS"
    (VObj [("TLS 1.3 Enabled", tls13);
           ("TLS 1.1 Disabled", js_not tls11);
           ("TLS 1.0 Disabled", js_not tls10);
           ("Forward Secrecy", secrecy);
           ("Certificate Length", certificate)]) ;;
  dnssec <- ref results .> "dnssec" .> "result" ;;
  caa <- ref results .> "caa" .> "result" ;;
  response <- set response "DNS"
    (VObj [("DNSSEC", dnssec); ("CAA", caa)]) ;;
  csp <- (data <- ref results .> "contentSecurityPolicy" .> "data" ;;
          parseCsp results data) ;;
  response <- set response "CSP" csp ;;
  feature <- ref results .> "featurePolicy" .> "result" ;;
  referrer <- ref results .> "referrerPolicy" .> "result" ;;
  sniffing <- ref results .> "xContentTypeOptions" .> "result" ;;
  response <- set response "HTTP"
    (VObj [("Feature Policy", feature);
           ("Referrer Policy", referrer);
           ("MIME Type Sniffing Protection", sniffing)]) ;;
  server <- leaked bank "server" ;;
  poweredBy <- leaked bank "poweredBy" ;;
  aspVersion <- leaked bank "aspVersion" ;;
  results <- set results "Miscellaneous Headers"
    (VObj [("Server", server);
           ("X-Powered-By", poweredBy);
           ("ASP.NET Version", aspVersion)]) ;;
  Ok (response, results).

End Normalizer.

(** A complete scanner result for one site, used in the examples. *)
Definition check (result : value) : value := VObj [("result", result)].

Definition check_data (result data : value) : value :=
  VObj [("result", result); ("data", data)].

Definition sample_raw (hsts csp frameOptions : value) : value :=
  VObj [("upgradeToHttps", check (VBool true));
        ("secureRedirectionChain", check (VBool true));
        ("accepts", VObj [("https", VBool true)]);
        ("hsts", hsts);
        ("tlsProtocols",
          check_data (VBool true)
            (VObj [("1.3", VBool true); ("1.2", VBool true);
                   ("1.1", VBool false); ("1.0", VBool false)]));
        ("forwardSecrecy", check (VBool true));
        ("certificate", check (VBool true));
        ("dnssec", check (VBool false));
        ("caa", check (VBool false));
        ("contentSecurityPolicy", csp);
        ("xXssProtection", check (VBool false));
        ("xFrameOptions", frameOptions);
        ("featurePolicy", check (VBool false));
        ("referrerPolicy", check (VBool true));
        ("xContentTypeOptions", check (VBool true));
        ("server",
          check_data (VBool false) (VObj [("value", VStr "nginx")]));
        ("poweredBy", check (VBool true));
        ("aspVersion", check (VBool true))].

Definition sample_bank (results : value) : value :=
  VObj [("name", VStr "Kiwi Bank");
        ("domain", VStr "kiwi.example");
        ("country", VObj [("code", VStr "nz"); ("name", VStr "New Zealand")]);
        ("results", results)].

Definition sample_hsts : value :=
  check_data (VBool true)
    (VObj [("age", VNum (of_Z 365)); ("preloaded", VBool false)]).

Definition sample_csp (ancestors : list string) : value :=
  check_data (VBool true)
    (VObj [("default-src", VArr [VStr "'self'"]);
           ("frame-ancestors", VArr (map VStr ancestors))]).

Definition sample_results : value :=
  sample_raw sample_hsts (sample_csp ["'self'"]) (check (VBool false)).

(** ** Ranking *)

(** [Array.prototype.sort(cmp)].  The language fixes the result only for a
    consistent comparator, and requires the sort to be stable; for such a
    comparator every stable sort returns the same array, so the built-in is
    modelled by a stable insertion sort.  The sort is in place and returns
    its receiver: the function below gives the array after the call. *)
Section ArraySort.
Context {A : Type}.
Variable cmp : A -> A -> Z.

Fixpoint insert (x : A) (l : list A) : list A :=
  match l with
  | [] => [x]
  | y :: l' => if (cmp x y <=? 0)%Z then x :: l else y :: insert x l'
  end.

Fixpoint Array_sort (l : list A) : list A :=
  match l with
  | [] => []
  | x :: l' => insert x (Array_sort l')
  end.
End ArraySort.

(** A card (index.js 116-121). *)
Record card : Type := { score : number; name : string; html : string }.

(** The comparator of [sortCards] (index.js 392-408); [<] on strings
    compares code units lexicographically. *)
Definition compareCards (a b : card) : Z :=
  if num_lt (score a) (score b) then 1%Z
  else if num_lt (score b) (score a) then (-1)%Z
  else if (name a <? name b) then (-1)%Z
  else if (name b <? name a) then 1%Z
  else 0%Z.

(** [sortCards] (index.js 390-410). *)
Definition sortCards (cards : list card) : list card :=
  Array_sort compareCards cards.

(** The comparator [sort()] uses when given none, on strings. *)
Definition compareStrings (a b : string) : Z :=
  if (a <? b) then (-1)%Z else if (b <? a) then 1%Z else 0%Z.

(** ** History archive *)

(** *** JSON *)

(** A JSON document.  Its text is not modelled: [JSON.stringify] is the map
    from values to documents, [JSON.parse] the map back, and a file holds a
    document ([Doc]) or text that does not parse ([Garbage]). *)
Inductive json : Type :=
| JNull
| JBool (b : bool)
| JNum (q : Q)
| JStr (s : string)
| JArr (elems : list json)
| JObj (members : list (string * json)).

Inductive content : Type :=
| Doc (j : json)
| Garbage.

(** [JSON.stringify]: [None] is the result [undefined].  A property whose
    value is [undefined] is left out of its object, an [undefined] array
    element becomes [null], and so does a number that is not finite. *)
Fixpoint JSON_stringify (v : value) : option json :=
  match v with
  | VUndef => None
  | VNull => Some JNull
  | VBool b => Some (JBool b)
  | VNum (Fin q) => Some (JNum q)
  | VNum _ => Some JNull
  | VStr s => Some (JStr s)
  | VArr l =>
      Some (JArr (map (fun x => match JSON_stringify x with
                                | Some j => j
                                | None => JNull
                                end) l))
  | VObj o =>
      Some (JObj ((fix members (o : list (string * value)) :=
                     match o with
                     | [] => []
                     | (k, x) :: o' =>
                         match JSON_stringify x with
                         | Some j => (k, j) :: members o'
                         | None => members o'
                         end
                     end) o))
  end.

(** The value a document denotes; the members of an object are defined one
    after the other, a repeated name overwriting the earlier value. *)
Fixpoint value_of_json (j : json) : value :=
  match j with
  | JNull => VNull
  | JBool b => VBool b
  | JNum q => VNum (Fin q)
  | JStr s => VStr s
  | JArr l => VArr (map value_of_json l)
  | JObj o =>
      VObj ((fix define (o : list (string * json)) (acc : list (string * value)) :=
               match o with
               | [] => acc
               | (k, x) :: o' => define o' (update acc k (value_of_json x))
               end) o [])
  end.

(** [JSON.parse] *)
Definition JSON_parse (c : content) : res value :=
  match c with
  | Doc j => Ok (value_of_json j)
  | Garbage => Throw SyntaxError
  end.

(** *** File store *)

Definition PATHS_HISTORY : string := "../history/".

Definition store : Type := list (string * content).

(** [s.indexOf(e)] *)
Fixpoint indexOf (s e : string) : Z :=
  if prefix e s then 0%Z
  else match s with
       | EmptyString => (-1)%Z
       | String _ s' =>
           let i := indexOf s' e in
           if (i <? 0)%Z then (-1)%Z else (i + 1)%Z
       end.

(** [s.substring(0, n)] *)
Definition substring0 (s : string) (n : Z) : string :=
  substring 0 (Z.to_nat n) s.

Fixpoint strip_prefix (p s : string) : option string :=
  match p, s with
  | EmptyString, _ => Some s
  | String a p', String b s' =>
      if Ascii.eqb a b then strip_prefix p' s' else None
  | String _ _, EmptyString => None
  end.

(** Modelled from the spec: the file-system module [filesystem.js] is not
    part of the sources; the spec describes it as an opaque key-value
    read/write store.  A store maps paths to file contents;
    [FS.readDirectory(dir)] lists the names of the files under [dir]. *)
Definition readDirectory (fs : store) (dir : string) : list string :=
  flat_map (fun f => match strip_prefix dir (fst f) with
                     | Some n => [n]
                     | None => []
                     end) fs.

(** Modelled from the spec: [FS.readFile(path)], the content stored under
    [path]. *)
Definition readFile (fs : store) (path : string) : res content :=
  match assoc path fs with
  | Some c => Ok c
  | None => Throw SystemError
  end.

(** Modelled from the spec: [FS.writeFile(path, content)], which replaces
    the content stored under [path]. *)
Definition writeFile (fs : store) (path : string) (c : content) : store :=
  update fs path c.

(** *** Writing and reading the archive *)

(** [v[p1]...[pn][k] = x]: the object reached through the path is written
    in place, so the whole of [v] is returned after the write. *)
Fixpoint assign (v : value) (path : list string) (k : string) (x : value)
  : res value :=
  match path with
  | [] => set v k x
  | p :: path' =>
      o <- get v p ;;
      o' <- assign o path' k x ;;
      set v p o'
  end.

(** The name of the archive entry of a month (index.js 136-144, 151). *)
Definition yearMonth (year month : nat) : string :=
  let month := if (month <? 10)%nat then "0" ++ decimal month
               else decimal month in
  decimal year ++ month.

(** The end of [createWebsite] (index.js 136-152), as a function of the
    variable [fullResults] at that point: the results of the run are written
    as the archive entry of the current month. *)
Definition createWebsite_archive (fs : store) (year month : nat)
    (fullResults : value) : res store :=
  orderedResults <-
    for_each (Array_sort compareStrings (keys_of fullResults))
      (fun key orderedResults =>
         x <- get fullResults key ;;
         set orderedResults key x)
      (VObj []) ;;
  match JSON_stringify orderedResults with
  | Some j =>
      Ok (writeFile fs
            (PATHS_HISTORY ++ yearMonth year month ++ ".json") (Doc j))
  | None => Throw TypeError
  end.

Definition is_undefined (v : value) : bool :=
  match v with
  | VUndef => true
  | _ => false
  end.

(** The body of the innermost loop of [getHistory] (index.js 631-638). *)
Definition recordBank (file : value) (scanDate countryCode bankName : string)
    (history : value) : res value :=
  h <- ref history .> countryCode .> bankName ;;
  history <- (if is_undefined h
              then assign history [countryCode] bankName (VObj [])
              else Ok history) ;;
  results <- ref file .> countryCode .> bankName ;;
  score <- calculateScore results ;;
  let grade := calculateGrade score in
  assign history [countryCode; bankName] scanDate
    (VObj [("score", VNum score); ("grade", grade)]).

(** The loop over the countries of one file (index.js 625-640). *)
Definition recordCountry (file : value) (scanDate countryCode : string)
    (history : value) : res value :=
  h <- get history countryCode ;;
  history <- (if is_undefined h
              then set history countryCode (VObj [])
              else Ok history) ;;
  banks <- get file countryCode ;;
  for_each (keys_of banks) (recordBank file scanDate countryCode) history.

(** [getHistory] (index.js 613-646). *)
Definition getHistory (fs : store) : res value :=
  let history := VObj [] in
  let directory := readDirectory fs PATHS_HISTORY in
  for_each directory
    (fun filename history =>
       file <- readFile fs (PATHS_HISTORY ++ filename) ;;
       file <- JSON_parse file ;;
       let scanDate := substring0 filename (indexOf filename ".") in
       for_each (keys_of file) (recordCountry file scanDate) history)
    history.


(** ** Notions used to state the properties *)

(** *** Well-formed values *)

Fixpoint distinct (l : list string) : bool :=
  match l with
  | [] => true
  | k :: l' => negb (existsb (String.eqb k) l') && distinct l'
  end.

(** A value represents a JavaScript datum when no object lists a property
    name twice. *)
Fixpoint wf (v : value) : bool :=
  match v with
  | VArr l => forallb wf l
  | VObj o => distinct (map fst o) && forallb (fun p => wf (snd p)) o
  | _ => true
  end.

Definition is_string (v : value) : bool :=
  match v with
  | VStr _ => true
  | _ => false
  end.

(** The metric values of a result set: the property values of its
    categories. *)
Definition metric_values (results : value) : list value :=
  flat_map (fun c => map snd (entries (snd c))) (entries results).

Definition count (f : value -> bool) (l : list value) : Z :=
  Z.of_nat (List.length (filter f l)).

(** The metrics the scorer counts, and those it counts as passed. *)
Definition scorable (v : value) : bool := negb (is_string v).
Definition passing (v : value) : bool := negb (is_string v) && truthy v.

Definition is_bool (v : value) : bool :=
  match v with
  | VBool _ => true
  | _ => false
  end.

Definition is_true (v : value) : bool :=
  match v with
  | VBool b => b
  | _ => false
  end.

(** A result set is normalized, in the sense of the data model, when each
    of its metric values is a boolean or a string. *)
Definition normalized (results : value) : bool :=
  forallb (fun v => is_bool v || is_string v) (metric_values results).

(** Three booleans, all true, and two non-empty strings: the score is 100
    (C3's example), so the strings do not dilute it. *)
Definition three_true_two_strings : value :=
  VObj [("HTTPS", VObj [("Upgrade HTTP", VBool true);
                        ("HSTS", VBool true)]);
        ("DNS", VObj [("CAA", VBool true)]);
        ("Miscellaneous Headers",
          VObj [("Server", VStr "nginx"); ("X-Powered-By", VStr "PHP")])].

Definition undefined_metrics : value :=
  VObj [("HTTPS", VObj [("HSTS", VUndef); ("HSTS Preloaded", VNull);
                        ("Accepts HTTPS", VBool true);
                        ("Upgrade HTTP", VNum (of_Z 1))]);
        ("Miscellaneous Headers", VObj [("Server", VStr "nginx")])].

(** *** The order of the cards *)

(** [a] is ranked no later than [b]: a higher score, or the same score and
    a name that is not greater in the (case-sensitive) lexicographic order
    of the character codes. *)
Definition bank_order (a b : card) : Prop :=
  num_lt (score b) (score a) = true
  \/ (num_lt (score a) (score b) = false
      /\ num_lt (score b) (score a) = false
      /\ (name a <=? name b) = true).

Definition is_nan (n : number) : bool :=
  match n with
  | NaN => true
  | _ => false
  end.

Definition scored (c : card) : Prop := is_nan (score c) = false.

Definition ranking_example : list card :=
  [ {| score := of_Z 80; name := "B"; html := "<a>B</a>" |};
    {| score := of_Z 90; name := "A"; html := "<a>A</a>" |};
    {| score := of_Z 80; name := "A"; html := "<a>A'</a>" |} ].

(** *** Frame ancestors *)

(** A source token: a string without a space. *)
Fixpoint no_space (s : string) : bool :=
  match s with
  | EmptyString => true
  | String c s' => negb (Ascii.eqb c " ") && no_space s'
  end.

(** The three scheme sources that let anyone frame the page. *)
Definition wildcards : list string := ["data:"; "http:"; "https:"].

(** The tokens of [frame-ancestors] protect against framing: there is at
    least one, and none is a wildcard scheme. *)
Definition protects (tokens : list string) : Prop :=
  tokens <> [] /\ forall w, In w wildcards -> ~ In w tokens.

Definition protectsb (tokens : list string) : bool :=
  negb (Nat.eqb (List.length tokens) 0)
  && forallb (fun w => negb (existsb (String.eqb w) tokens)) wildcards.

(** The tokens followed by a space each: the text after the leading space of
    [" " + tokens.join(" ") + " "]. *)
Fixpoint spaced (tokens : list string) : string :=
  match tokens with
  | [] => ""
  | t :: tokens' => t ++ " " ++ spaced tokens'
  end.

(** *** Shape and inputs of the normalizer *)

(** The categories of a result set with the metric names of each. *)
Definition shape (results : value) : list (string * list string) :=
  map (fun c => (fst c, keys_of (snd c))) (entries results).

Definition returned_shape : list (string * list string) :=
  [("HTTPS", ["Upgrade HTTP"; "Secure Redirection"; "Accepts HTTPS"; "HSTS";
              "HSTS Long Length"; "HSTS Preloaded"]);
   ("TLS", ["TLS 1.3 Enabled"; "TLS 1.1 Disabled"; "TLS 1.0 Disabled";
            "Forward Secrecy"; "Certificate Length"]);
   ("DNS", ["DNSSEC"; "CAA"]);
   ("CSP", ["XSS Protection"; "Framing Protection"]);
   ("HTTP", ["Feature Policy"; "Referrer Policy";
             "MIME Type Sniffing Protection"])].

Definition header_metrics : list string :=
  ["Server"; "X-Powered-By"; "ASP.NET Version"].

(** A value whose properties can be read. *)
Definition present (v : value) : bool :=
  match v with
  | VUndef | VNull => false
  | _ => true
  end.






(** Scanner results with a gap. *)
Definition raw_hsts_without_result : value :=
  sample_raw (VObj []) (sample_csp ["'self'"]) (check (VBool false)).




(** *** The archive *)


(** The data model of the archive: a metric value is a boolean or a
    string, a result set maps category names to objects of metric values,
    and a snapshot maps country codes to objects that map bank names to
    result sets. *)
Definition is_metric_value (v : value) : bool := is_bool v || is_string v.





(** The date a file name stands for in [getHistory]: the name up to its
    first dot. *)
Definition scanDate (filename : string) : string :=
  substring0 filename (indexOf filename ".").

(** Pure readings of properties, [undefined] when there is none. *)
Definition lookup (o : list (string * value)) (k : string) : value :=
  match assoc k o with
  | Some x => x
  | None => VUndef
  end.


Definition props (v : value) : list (string * value) :=
  match v with
  | VObj o => o
  | _ => []
  end.







Fixpoint no_dot (s : string) : bool :=
  match s with
  | EmptyString => true
  | String c s' => negb (Ascii.eqb c ".") && no_dot s'
  end.

(** The object [JSON.parse] builds from the members of a document. *)
Fixpoint define (o : list (string * json)) (acc : list (string * value))
  : list (string * value) :=
  match o with
  | [] => acc
  | (k, x) :: o' => define o' (update acc k (value_of_json x))
  end.

(** The members [JSON.stringify] writes for the properties of an object. *)
Fixpoint members (o : list (string * value)) : list (string * json) :=
  match o with
  | [] => []
  | (k, x) :: o' =>
      match JSON_stringify x with
      | Some j => (k, j) :: members o'
      | None => members o'
      end
  end.


(** What [processResults] returns on [raw_hsts_without_result]: the three
    HSTS metrics are [undefined]. *)
Definition results_with_gap : value :=
  VObj [("HTTPS", VObj [("Upgrade HTTP", VBool true);
                        ("Secure Redirection", VBool true);
                        ("Accepts HTTPS", VBool true);
                        ("HSTS", VUndef);
                        ("HSTS Long Length", VUndef);
                        ("HSTS Preloaded", VUndef)]);
        ("TLS", VObj [("TLS 1.3 Enabled", VBool true);
                      ("TLS 1.1 Disabled", VBool true);
                      ("TLS 1.0 Disabled", VBool true);
                      ("Forward Secrecy", VBool true);
                      ("Certificate Length", VBool true)]);
        ("DNS", VObj [("DNSSEC", VBool false); ("CAA", VBool false)]);
        ("CSP", VObj [("XSS Protection", VBool true);
                      ("Framing Protection", VBool true)]);
        ("HTTP", VObj [("Feature Policy", VBool false);
                       ("Referrer Policy", VBool true);
                       ("MIME Type Sniffing Protection", VBool true)])].

Definition snapshot_with_gap : value :=
  VObj [("nz", VObj [("Kiwi Bank", results_with_gap)])].

(** A snapshot of two countries whose metrics are booleans. *)
Definition snapshot_example : value :=
  VObj [("nz", VObj [("Kiwi Bank",
                      VObj [("HTTPS", VObj [("HSTS", VBool true);
                                            ("Accepts HTTPS", VBool false)]);
                            ("DNS", VObj [("CAA", VBool true)])])]);
        ("au", VObj [("Roo Bank",
                      VObj [("HTTPS", VObj [("HSTS", VBool false)])])])].

(** *** Induction on values and documents *)

Section ValueInd.
Variable P : value -> Prop.
Hypothesis Pundef : P VUndef.
Hypothesis Pnull : P VNull.
Hypothesis Pbool : forall b, P (VBool b).
Hypothesis Pnum : forall n, P (VNum n).
Hypothesis Pstr : forall s, P (VStr s).
Hypothesis Parr : forall l, Forall P l -> P (VArr l).
Hypothesis Pobj : forall o, Forall (fun p => P (snd p)) o -> P (VObj o).

End ValueInd.

Section JsonInd.
Variable P : json -> Prop.
Hypothesis Pnull : P JNull.
Hypothesis Pbool : forall b, P (JBool b).
Hypothesis Pnum : forall q, P (JNum q).
Hypothesis Pstr : forall s, P (JStr s).
Hypothesis Parr : forall l, Forall P l -> P (JArr l).
Hypothesis Pobj : forall o, Forall (fun p => P (snd p)) o -> P (JObj o).

End JsonInd.

(** * The rest of the program *)

(** ** Text helpers *)

(** [toLowerCase] on one character code below 256: the letters A-Z and the
    accented capitals of Latin-1 move 32 codes up. *)
Definition lower_char (c : ascii) : ascii :=
  let n := nat_of_ascii c in
  if ((65 <=? n) && (n <=? 90))%nat
     || ((192 <=? n) && (n <=? 214))%nat
     || ((216 <=? n) && (n <=? 222))%nat
  then ascii_of_nat (n + 32)
  else c.

(** [s.toLowerCase()] *)
Fixpoint toLowerCase (s : string) : string :=
  match s with
  | EmptyString => EmptyString
  | String c s' => String (lower_char c) (toLowerCase s')
  end.

(** [s.replace(/c/g, r)] for one literal character [c] and a replacement
    [r] without [$]. *)
Fixpoint replace_global (c : ascii) (r : string) (s : string) : string :=
  match s with
  | EmptyString => EmptyString
  | String a s' =>
      if Ascii.eqb a c then r ++ replace_global c r s'
      else String a (replace_global c r s')
  end.

(** [makeUrlSafe] (index.js 284-290). *)
Definition makeUrlSafe (str : string) : string :=
  replace_global "'" ""
    (replace_global "&" "-"
       (replace_global " " "-"
          (toLowerCase str))).

(** [s.split(sep)] for a non-empty separator: [skip] counts the characters
    of a separator still to pass, [cur] is the piece being read. *)
Fixpoint split_from (sep : string) (s : string) (skip : nat) (cur : string)
  : list string :=
  match s with
  | EmptyString => [cur]
  | String a s' =>
      match skip with
      | S k => split_from sep s' k cur
      | O =>
          if prefix sep s
          then cur :: split_from sep s' (String.length sep - 1) ""
          else split_from sep s' 0 (cur ++ String a "")
      end
  end.

Definition split (s sep : string) : list string := split_from sep s 0 "".

(** The method call [v.split(sep)]: only strings have the method. *)
Definition call_split (v : value) (sep : string) : res (list string) :=
  match v with
  | VStr s => Ok (split s sep)
  | _ => Throw TypeError
  end.

Definition double_quote : string := String "034"%char "".

(** The table [replace] of [htmlEncode] (index.js 485-491), in the order
    [for ... in] visits it. *)
Definition html_entities : list (string * string) :=
  [("&", "&amp;"); ("<", "&lt;"); (">", "&gt;"); ("'", "&apos;");
   (double_quote, "&quot;")].

(** [htmlEncode] (index.js 483-499): every turn of the loop replaces the
    variable [string] by [string.split(c).join(replace[c])]. *)
Definition htmlEncode (string : value) : res value :=
  for_each html_entities
    (fun entity string =>
       parts <- call_split string (fst entity) ;;
       Ok (VStr (concat (snd entity) parts)))
    string.

Definition months : list value :=
  [VUndef; VStr "January"; VStr "February"; VStr "March"; VStr "April";
   VStr "May"; VStr "June"; VStr "July"; VStr "August"; VStr "September";
   VStr "October"; VStr "November"; VStr "December"].

(** [convertMonth] (index.js 505-523). *)
Definition convertMonth (month : number) : value := index_num months month.

(** ** Notions used to state the properties of the text helpers *)

(** What [makeUrlSafe] makes of one character. *)
Definition url_char (c : ascii) : string :=
  if Ascii.eqb c "'" then ""
  else if Ascii.eqb c " " || Ascii.eqb c "&" then "-"
  else String (lower_char c) "".

(** What [htmlEncode] makes of one character. *)
Definition html_char (c : ascii) : string :=
  if Ascii.eqb c "&" then "&amp;"
  else if Ascii.eqb c "<" then "&lt;"
  else if Ascii.eqb c ">" then "&gt;"
  else if Ascii.eqb c "'" then "&apos;"
  else if Ascii.eqb c "034" then "&quot;"
  else String c "".

Fixpoint each_char (f : ascii -> string) (s : string) : string :=
  match s with
  | EmptyString => EmptyString
  | String c s' => f c ++ each_char f s'
  end.

Fixpoint has_char (c : ascii) (s : string) : bool :=
  match s with
  | EmptyString => false
  | String a s' => Ascii.eqb a c || has_char c s'
  end.


(** A scanner result whose [frame-ancestors] directive is one string. *)
Definition raw_string_directive : value :=
  sample_raw sample_hsts
    (check_data (VBool true) (VObj [("frame-ancestors", VStr "'none'")]))
    (check (VBool false)).



(** The month as [createWebsite] writes it in the name of the archive
    (index.js 140-144). *)
Definition paddedMonth (month : nat) : string :=
  if (month <? 10)%nat then "0" ++ decimal month else decimal month.


(** ** Renderer *)

Definition newline : string := String "010"%char "".

(** [GetSubstitution] for a string pattern.  There are no captures, so of
    the [$] patterns of the replacement text only [$$], [$&], [$`] and [$']
    stand for something: a dollar sign, the match, the text before it and
    the text after it.  Every other [$] stays. *)
Fixpoint GetSubstitution (matched before after replacement : string)
  : string :=
  match replacement with
  | EmptyString => EmptyString
  | String a r =>
      if Ascii.eqb a "$" then
        match r with
        | String c r' =>
            if Ascii.eqb c "$"
            then "$" ++ GetSubstitution matched before after r'
            else if Ascii.eqb c "&"
            then matched ++ GetSubstitution matched before after r'
            else if Ascii.eqb c "`"
            then before ++ GetSubstitution matched before after r'
            else if Ascii.eqb c "'"
            then after ++ GetSubstitution matched before after r'
            else String a (GetSubstitution matched before after r)
        | EmptyString => String a EmptyString
        end
      else String a (GetSubstitution matched before after r)
  end.

(** [s.substring(n)] *)
Definition substring_from (s : string) (n : nat) : string :=
  substring n (String.length s) s.

(** [s.replace(searchString, replaceValue)] with two strings: the first
    occurrence of [searchString] is replaced. *)
Definition String_replace (s searchString replaceValue : string) : string :=
  let pos := indexOf s searchString in
  if (pos <? 0)%Z then s
  else
    let before := substring0 s pos in
    let after :=
      substring_from s (Z.to_nat pos + String.length searchString) in
    before ++ GetSubstitution searchString before after replaceValue ++ after.

(** The white space [parseInt] skips, among the character codes below
    256: tab, line feed, vertical tab, form feed, carriage return, space
    and no-break space. *)
Definition is_white (c : ascii) : bool :=
  let n := nat_of_ascii c in
  ((9 <=? n) && (n <=? 13) || (n =? 32) || (n =? 160))%nat.

Fixpoint trim_start (s : string) : string :=
  match s with
  | EmptyString => EmptyString
  | String c s' => if is_white c then trim_start s' else s
  end.

(** The value of a digit: [0-9], then the letters in either case. *)
Definition digit_value (c : ascii) : option Z :=
  let n := nat_of_ascii c in
  if ((48 <=? n) && (n <=? 57))%nat then Some (Z.of_nat n - 48)%Z
  else if ((97 <=? n) && (n <=? 122))%nat then Some (Z.of_nat n - 87)%Z
  else if ((65 <=? n) && (n <=? 90))%nat then Some (Z.of_nat n - 55)%Z
  else None.

(** The integer written by the longest prefix of [s] made of digits of
    radix [R]; [acc] is the value read so far, [None] before the first
    digit. *)
Fixpoint read_digits (R : Z) (s : string) (acc : option Z) : option Z :=
  match s with
  | EmptyString => acc
  | String c s' =>
      match digit_value c with
      | Some d =>
          if (d <? R)%Z
          then read_digits R s'
                 (Some (match acc with
                        | Some a => a * R + d
                        | None => d
                        end)%Z)
          else acc
      | None => acc
      end
  end.

(** [parseInt(string)] on a string, without a radix.  The integer read is
    returned as it is: the rounding of integers above 2^53 to a double is
    not modelled, nor is the sign of zero. *)
Definition parseInt (string : string) : number :=
  let s := trim_start string in
  let sign := if prefix "-" s then (-1)%Z else 1%Z in
  let s := if prefix "-" s || prefix "+" s then substring_from s 1 else s in
  let R := if prefix "0x" s || prefix "0X" s then 16%Z else 10%Z in
  let s := if prefix "0x" s || prefix "0X" s then substring_from s 2 else s in
  match read_digits R s None with
  | None => NaN
  | Some mathInt => of_Z (sign * mathInt)
  end.

(** [x === s] for a string [s] *)
Definition strict_eq_string (x : value) (s : string) : bool :=
  match x with
  | VStr t => String.eqb t s
  | _ => false
  end.

(** [a == b] on numbers *)
Definition num_eq (a b : number) : bool :=
  match a, b with
  | Fin p, Fin q => Qeq_bool p q
  | Inf s, Inf t => Bool.eqb s t
  | _, _ => false
  end.

Section Renderer.

Variable Number_toString : number -> string.
Variable StringToNumber : string -> number.

Definition categoryHtmlTop : string :=
  "<section>" ++ newline ++ "<div class=top>$category</div>" ++ newline.

Definition categoryHtmlBottom : string := "</section>" ++ newline.

(** The body of the inner loop of [makeBankMain] (index.js 431-450);
    [main] is the text built so far. *)
Definition renderMetric (results : value) (category metric : string)
    (main : string) : res string :=
  result <- ref results .> category .> metric ;;
  cell <-
    (if typeof result =? "boolean" then
       Ok ((if truthy result then "A" else "E") ++ " check",
           if truthy result then "&check;" else "&cross;")
     else
       let grade := if strict_eq_string result "" then "italic" else "" in
       check <- (if strict_eq_string result "" then Ok (VStr "hidden")
                 else htmlEncode result) ;;
       Ok (grade, ToString Number_toString check)) ;;
  let '(grade, check) := cell in
  Ok (main ++
      "<div class=measure>" ++
      "<span>" ++ metric ++ "</span>" ++
      "<div class=results>" ++
      "<div class=" ++ double_quote ++ "result " ++ grade ++ double_quote ++
      ">" ++ check ++ "</div>" ++
      "</div>" ++
      "</div>" ++ newline).

(** The body of the loop over the categories (index.js 428-453). *)
Definition renderCategory (results : value) (category : string)
    (main : string) : res string :=
  let main := main ++ String_replace categoryHtmlTop "$category" category in
  metrics <- get results category ;;
  main <- for_each (keys_of metrics) (renderMetric results category) main ;;
  Ok (main ++ categoryHtmlBottom).

(** The body of the loop over the dates of the history (index.js
    458-471). *)
Definition renderScan (history : value) (date : string) (main : string)
  : res string :=
  scan <- get history date ;;
  let year := substring 0 4 date in
  let month := convertMonth (parseInt (substring_from date 4)) in
  grade <- get scan "grade" ;;
  score <- get scan "score" ;;
  Ok (main ++
      "<div class=history>" ++
      "<div class=" ++ double_quote ++ "grade " ++
      ToString Number_toString grade ++ double_quote ++ ">" ++
      ToString Number_toString score ++ "</div>" ++
      "<p>" ++ ToString Number_toString month ++ " " ++ year ++ "</p>" ++
      "</div>" ++ newline).

(** [makeBankMain] (index.js 418-476). *)
Definition makeBankMain (results history : value) : res string :=
  let main := "" in
  main <- for_each (keys_of results) (renderCategory results) main ;;
  main <-
    (if truthy history then
       let main := main ++ String_replace categoryHtmlTop "$category" "History" in
       main <- for_each (keys_of history) (renderScan history) main ;;
       Ok (main ++ categoryHtmlBottom)
     else Ok main) ;;
  Ok main.

(** [x == s] for a string [s]: a number or a boolean is compared with the
    number the string reads as, an array or an object with the string it
    converts to. *)
Definition loose_eq_string (x : value) (s : string) : bool :=
  match x with
  | VUndef | VNull => false
  | VBool b => num_eq (if b then of_Z 1 else of_Z 0) (StringToNumber s)
  | VNum n => num_eq n (StringToNumber s)
  | VStr t => String.eqb t s
  | VArr _ | VObj _ => String.eqb (ToString Number_toString x) s
  end.

(** [getExplanation] (index.js 530-551). *)
Definition getExplanation (grade : value) : value :=
  if loose_eq_string grade "Z" then
    VStr "has excellent website security. They have passed every test."
  else if loose_eq_string grade "A" then
    VStr "has very good security. They have passed almost every test."
  else if loose_eq_string grade "B" then
    VStr "has above average security. They have passed most of the tests."
  else if loose_eq_string grade "C" then
    VStr "has average security. They have failed around half of the tests."
  else if loose_eq_string grade "D" then
    VStr "has below average security. They have failed most of the tests."
  else if loose_eq_string grade "E" then
    VStr "has very bad security. They have failed almost every on of the tests."
  else VUndef.

End Renderer.

(** * Properties *)

(** ** Properties and loops *)

Lemma distinct_NoDup l : distinct l = true <-> NoDup l.
Proof.
  induction l as [|k l IH]; simpl.
  - split; [constructor | reflexivity].
  - rewrite andb_true_iff, negb_true_iff, IH. split.
    + intros [Hk Hl]. constructor; [|assumption].
      intros Hin. apply not_true_iff_false in Hk. apply Hk.
      apply existsb_exists. exists k. split; [assumption | apply String.eqb_refl].
    + intros H. inversion H as [|? ? Hk Hl]; subst. split; [|assumption].
      apply not_true_iff_false. intros Hex.
      apply existsb_exists in Hex. destruct Hex as [k' [Hin Heq]].
      apply String.eqb_eq in Heq. subst. contradiction.
Qed.

Lemma assoc_In {A} (k : string) (o : list (string * A)) x :
  assoc k o = Some x -> In (k, x) o.
Proof.
  induction o as [|[k' x'] o IH]; simpl; [discriminate|].
  destruct (String.eqb_spec k' k) as [->|Hne].
  - intros [= ->]. now left.
  - intros H. right. now apply IH.
Qed.

Lemma assoc_None {A} (k : string) (o : list (string * A)) :
  assoc k o = None <-> ~ In k (map fst o).
Proof.
  induction o as [|[k' x'] o IH]; simpl.
  - split; [tauto | reflexivity].
  - destruct (String.eqb_spec k' k) as [->|Hne].
    + split; [discriminate | intros H; exfalso; apply H; now left].
    + rewrite IH. split; [intros H [E|E]; [congruence | contradiction] | tauto].
Qed.

Lemma In_assoc {A} (k : string) (o : list (string * A)) x :
  NoDup (map fst o) -> In (k, x) o -> assoc k o = Some x.
Proof.
  induction o as [|[k' x'] o IH]; simpl; [contradiction|].
  intros Hnd [Heq|Hin].
  - injection Heq as -> ->. now rewrite String.eqb_refl.
  - inversion Hnd as [|? ? Hk Hl]; subst.
    destruct (String.eqb_spec k' k) as [->|Hne].
    + exfalso. apply Hk. apply in_map_iff. now exists (k, x).
    + now apply IH.
Qed.

Lemma decimal_inj n m : decimal n = decimal m -> n = m.
Proof.
  unfold decimal. intros H.
  apply Unsigned.to_uint_inj.
  assert (E : Some (Nat.to_uint n) = Some (Nat.to_uint m)).
  { rewrite <- !NilEmpty.usu. now rewrite H. }
  now injection E.
Qed.

Lemma index_keys_NoDup n : NoDup (index_keys n).
Proof.
  unfold index_keys. apply Injective_map_NoDup.
  - intros a b. apply decimal_inj.
  - apply seq_NoDup.
Qed.

Lemma map_fst_combine {A B} (l : list A) (l' : list B) :
  List.length l = List.length l' -> map fst (combine l l') = l.
Proof.
  revert l'. induction l as [|a l IH]; intros [|b l']; simpl;
    try discriminate; try reflexivity.
  intros [= H]. now rewrite IH.
Qed.

Lemma keys_of_NoDup v : wf v = true -> NoDup (keys_of v).
Proof.
  unfold keys_of. destruct v; simpl; try constructor.
  - intros _. rewrite map_fst_combine.
    + apply index_keys_NoDup.
    + unfold index_keys, chars.
      rewrite !length_map, length_seq.
      clear. induction s; simpl; congruence.
  - intros _. rewrite map_fst_combine.
    + apply index_keys_NoDup.
    + unfold index_keys. now rewrite length_map, length_seq.
  - rewrite andb_true_iff. intros [H _]. now apply distinct_NoDup.
Qed.

Lemma wf_entries v k x : wf v = true -> In (k, x) (entries v) -> wf x = true.
Proof.
  destruct v; simpl; try contradiction.
  - intros _ H. apply in_combine_r in H. unfold chars in H.
    apply in_map_iff in H. destruct H as [c [<- _]]. reflexivity.
  - intros H Hin. apply in_combine_r in Hin.
    rewrite forallb_forall in H. now apply H.
  - rewrite andb_true_iff. intros [_ H] Hin.
    rewrite forallb_forall in H. now apply (H (k, x)).
Qed.

(** A property [for ... in] visits reads back as its value. *)
Lemma get_entries v k x :
  wf v = true -> In (k, x) (entries v) -> get v k = Ok x.
Proof.
  intros Hwf Hin.
  assert (E : assoc k (entries v) = Some x).
  { apply In_assoc; [|assumption]. now apply keys_of_NoDup. }
  destruct v; simpl in Hin; try contradiction; unfold get; now rewrite E.
Qed.

(** A loop over the keys of [v] whose body starts by reading [v[k]] is a
    loop over the properties of [v]. *)
Lemma for_each_keys {S} v (body : string -> value -> S -> res S) s :
  wf v = true ->
  for_each (keys_of v) (fun k st => x <- get v k ;; body k x st) s
  = for_each (entries v) (fun kx st => body (fst kx) (snd kx) st) s.
Proof.
  intros Hwf. unfold keys_of.
  assert (G : forall l, incl l (entries v) -> forall s,
    for_each (map fst l) (fun k st => x <- get v k ;; body k x st) s
    = for_each l (fun kx st => body (fst kx) (snd kx) st) s).
  { induction l as [|[k x] l IH]; intros Hincl s0; simpl; [reflexivity|].
    rewrite (get_entries v k x Hwf) by (apply Hincl; now left). simpl.
    destruct (body k x s0); simpl; [|reflexivity].
    apply IH. intros y Hy. apply Hincl. now right. }
  apply G. apply incl_refl.
Qed.

Lemma for_each_ext {A S} (l : list A) (f g : A -> S -> res S) s :
  (forall a st, In a l -> f a st = g a st) ->
  for_each l f s = for_each l g s.
Proof.
  revert s. induction l as [|a l IH]; intros s H; simpl; [reflexivity|].
  rewrite H by now left. destruct (g a s); simpl; [|reflexivity].
  apply IH. intros b st Hb. apply H. now right.
Qed.

(** ** Scoring *)

Example score_demo :
  calculateScore
    (VObj [("HTTPS", VObj [("a", VBool true); ("b", VBool false)]);
           ("Misc", VObj [("Server", VStr "nginx"); ("c", VBool true)])])
  = Ok (of_Z 67).
Proof. reflexivity. Qed.

Example grade_demo :
  map (fun z => calculateGrade (of_Z z)) [0; 19; 20; 39; 40; 59; 60; 79; 80; 99; 100]%Z
  = [VStr "E"; VStr "E"; VStr "D"; VStr "D"; VStr "C"; VStr "C";
     VStr "B"; VStr "B"; VStr "A"; VStr "A"; VStr "Z"].
Proof. reflexivity. Qed.

Lemma typeof_string v : (typeof v =? "string") = is_string v.
Proof. destruct v; reflexivity. Qed.

Lemma count_cons f x l :
  count f (x :: l) = ((if f x then 1 else 0) + count f l)%Z.
Proof. unfold count. simpl. destruct (f x); simpl List.length; lia. Qed.

Lemma count_app f l l' : count f (l ++ l')%list = (count f l + count f l')%Z.
Proof. unfold count. rewrite filter_app, length_app. lia. Qed.

Lemma count_nonneg f l : (0 <= count f l)%Z.
Proof. unfold count. lia. Qed.

Lemma passing_le_scorable l : (count passing l <= count scorable l)%Z.
Proof.
  induction l as [|x l IH]; [reflexivity|].
  rewrite !count_cons.
  destruct (passing x) eqn:Hp, (scorable x) eqn:Hs; try lia.
  unfold passing, scorable in Hp, Hs.
  destruct (is_string x); discriminate.
Qed.

(** The counters after the loops of [calculateScore]. *)
Lemma score_loop_category results category c total score :
  wf c = true -> get results category = Ok c ->
  for_each (keys_of c) (scoreMetric results category) (total, score)
  = Ok ((total + count scorable (map snd (entries c)))%Z,
        (score + count passing (map snd (entries c)))%Z).
Proof.
  intros Hwf Hget.
  rewrite (for_each_ext _ _
    (fun k st => x <- get c k ;;
       (fun _ m st => Ok ((fst st + (if scorable m then 1 else 0))%Z,
                          (snd st + (if passing m then 1 else 0))%Z)) k x st)).
  2:{ intros k [t s] _. unfold scoreMetric. rewrite Hget. simpl.
      destruct (get c k) as [m|]; simpl; [|reflexivity].
      rewrite typeof_string. unfold scorable, passing.
      destruct (is_string m), (truthy m); simpl; f_equal; f_equal; lia. }
  rewrite for_each_keys by assumption.
  generalize (entries c) as l. intros l. revert total score.
  induction l as [|[k m] l IH]; intros total score; simpl.
  - unfold count. simpl. f_equal. f_equal; lia.
  - rewrite IH. rewrite !count_cons. f_equal. f_equal; lia.
Qed.

Lemma score_loop results :
  wf results = true ->
  for_each (keys_of results) (fun category st =>
      c <- get results category ;;
      for_each (keys_of c) (scoreMetric results category) st)
    (0%Z, 0%Z)
  = Ok (count scorable (metric_values results),
        count passing (metric_values results)).
Proof.
  intros Hwf.
  rewrite (for_each_keys results
    (fun category c st => for_each (keys_of c) (scoreMetric results category) st))
    by assumption.
  unfold metric_values.
  assert (G : forall l, incl l (entries results) -> forall total score,
    for_each l (fun kx st =>
        for_each (keys_of (snd kx)) (scoreMetric results (fst kx)) st)
      (total, score)
    = Ok ((total + count scorable
                     (flat_map (fun c => map snd (entries (snd c))) l))%Z,
          (score + count passing
                     (flat_map (fun c => map snd (entries (snd c))) l))%Z)).
  { induction l as [|[k c] l IH]; intros Hincl total score; simpl.
    - unfold count. simpl. f_equal. f_equal; lia.
    - assert (Hin : In (k, c) (entries results)) by (apply Hincl; now left).
      rewrite (score_loop_category results k c).
      + simpl. rewrite IH by (intros y Hy; apply Hincl; now right).
        rewrite !count_app. f_equal. f_equal; lia.
      + now apply (wf_entries results k).
      + now apply get_entries. }
  rewrite (G _ (incl_refl _)). reflexivity.
Qed.

(** [calculateScore] never throws, and its result is determined by the two
    counts. *)
Lemma calculateScore_counts results :
  wf results = true ->
  calculateScore results
  = Ok (Math_round
          (num_div (num_mul (of_Z (count passing (metric_values results)))
                            (of_Z 100))
                   (of_Z (count scorable (metric_values results))))).
Proof.
  intros Hwf. unfold calculateScore. rewrite score_loop by assumption.
  reflexivity.
Qed.

(** *** Arithmetic of the score *)

Lemma Qfloor_ratio a b :
  (0 < b)%Z -> Qfloor (inject_Z a / inject_Z b) = (a / b)%Z.
Proof.
  intros Hb. destruct b as [|p|p]; try lia.
  unfold Qdiv, Qinv, Qmult, inject_Z. simpl.
  now rewrite Z.mul_1_r.
Qed.

Lemma Qis_zero_inject z : Qis_zero (inject_Z z) = (z =? 0)%Z.
Proof.
  unfold Qis_zero, Qeq_bool, inject_Z. simpl.
  now rewrite Z.mul_1_r.
Qed.

Lemma round_ratio p n :
  (0 < n)%Z ->
  Math_round (num_div (num_mul (of_Z p) (of_Z 100)) (of_Z n))
  = of_Z ((200 * p + n) / (2 * n)).
Proof.
  intros Hn. unfold of_Z at 1 2 3, num_mul, num_div.
  rewrite Qis_zero_inject.
  destruct (Z.eqb_spec n 0) as [E|_]; [lia|].
  unfold Math_round. f_equal.
  rewrite <- (Qfloor_ratio (200 * p + n) (2 * n)) by lia.
  apply Qfloor_comp.
  rewrite !Qred_correct.
  rewrite inject_Z_plus, !inject_Z_mult.
  assert (Hz : ~ inject_Z n == 0).
  { intros E. unfold Qeq, inject_Z in E. simpl in E. lia. }
  change (inject_Z 100) with 100%Q.
  change (inject_Z 200) with 200%Q.
  change (inject_Z 2) with 2%Q.
  field. assumption.
Qed.

Lemma zero_ratio :
  Math_round (num_div (num_mul (of_Z 0) (of_Z 100)) (of_Z 0)) = NaN.
Proof. reflexivity. Qed.

Lemma index_num_of_Z l k :
  index_num l (of_Z k)
  = if (0 <=? k)%Z then nth (Z.to_nat k) l VUndef else VUndef.
Proof.
  unfold index_num, of_Z. rewrite Qfloor_Z.
  assert (E : Qeq_bool (inject_Z k) (inject_Z k) = true)
    by (apply Qeq_bool_iff; reflexivity).
  now rewrite E.
Qed.

Lemma calculateGrade_of_Z z :
  calculateGrade (of_Z z)
  = if (0 <=? z / 20)%Z then nth (Z.to_nat (z / 20)) grades VUndef
    else VUndef.
Proof.
  unfold calculateGrade. unfold of_Z at 1 2. unfold num_div.
  rewrite Qis_zero_inject. simpl (20 =? 0)%Z. cbv iota.
  unfold Math_floor.
  assert (E : Qfloor (Qred (inject_Z z / inject_Z 20)) = (z / 20)%Z).
  { rewrite <- (Qfloor_ratio z 20) by lia.
    apply Qfloor_comp. apply Qred_correct. }
  rewrite E. apply index_num_of_Z.
Qed.

(** *** The score formula *)

Lemma count_normalized l :
  forallb (fun v => is_bool v || is_string v) l = true ->
  count scorable l = count is_bool l /\ count passing l = count is_true l.
Proof.
  induction l as [|x l IH]; simpl; [split; reflexivity|].
  rewrite andb_true_iff. intros [Hx Hl]. destruct (IH Hl) as [E1 E2].
  rewrite !count_cons, E1, E2.
  destruct x as [| |[]| | | |]; simpl in Hx; try discriminate;
    split; reflexivity.
Qed.

(** C3.  For a normalized result set with [N] boolean metrics of which [P]
    are true ([N] positive), [calculateScore] returns the integer nearest
    to [100*P/N] (ties upwards): the integer [s] with
    [s - 1/2 <= 100*P/N < s + 1/2].  It lies between 0 and 100.  The
    strings among the metrics do not enter [N] or [P]. *)
Theorem calculateScore_formula results N P :
  wf results = true ->
  normalized results = true ->
  count is_bool (metric_values results) = N ->
  count is_true (metric_values results) = P ->
  (0 < N)%Z ->
  exists s : Z,
    calculateScore results = Ok (of_Z s)
    /\ (2 * N * s <= 200 * P + N < 2 * N * (s + 1))%Z
    /\ (0 <= s <= 100)%Z.
Proof.
  intros Hwf Hnorm HN HP Hpos.
  destruct (count_normalized _ Hnorm) as [E1 E2].
  pose proof (passing_le_scorable (metric_values results)) as Hle.
  pose proof (count_nonneg passing (metric_values results)) as Hge.
  rewrite E1, E2, HN, HP in *.
  exists ((200 * P + N) / (2 * N))%Z. split; [|split].
  - rewrite calculateScore_counts by assumption.
    rewrite E1, E2. now rewrite round_ratio.
  - assert (H1 := Z.mul_div_le (200 * P + N) (2 * N) ltac:(lia)).
    assert (H2 := Z.mul_succ_div_gt (200 * P + N) (2 * N) ltac:(lia)).
    unfold Z.succ in H2. lia.
  - split.
    + apply Z.div_pos; lia.
    + apply Z.lt_succ_r. apply Z.div_lt_upper_bound; lia.
Qed.

Example score_three_true_two_strings :
  calculateScore three_true_two_strings = Ok (of_Z 100).
Proof. reflexivity. Qed.

Lemma calculateScore_formula_witness :
  exists s : Z,
    calculateScore three_true_two_strings = Ok (of_Z s)
    /\ (2 * 3 * s <= 200 * 3 + 3 < 2 * 3 * (s + 1))%Z
    /\ (0 <= s <= 100)%Z.
Proof.
  apply (calculateScore_formula three_true_two_strings 3 3);
    (reflexivity || lia).
Defined.

(** C4 as stated fails: with no scorable metric the result is [NaN], not an
    integer fallback. *)
Lemma calculateScore_no_metric_counterexample :
  calculateScore (VObj [("Miscellaneous Headers",
                          VObj [("Server", VStr "nginx")])]) = Ok NaN
  /\ ~ (exists s : Z,
          calculateScore (VObj [("Miscellaneous Headers",
                                  VObj [("Server", VStr "nginx")])])
          = Ok (of_Z s)).
Proof.
  split; [reflexivity|]. intros [s H]. discriminate H.
Qed.

(** C4, amended.  With no scorable metric [calculateScore] does not throw:
    it returns [NaN] (the unguarded [0/0]), and the grade of [NaN] is
    [undefined]. *)
Theorem calculateScore_no_metric results :
  wf results = true ->
  count scorable (metric_values results) = 0%Z ->
  calculateScore results = Ok NaN /\ calculateGrade NaN = VUndef.
Proof.
  intros Hwf H0. split; [|reflexivity].
  rewrite calculateScore_counts by assumption.
  pose proof (passing_le_scorable (metric_values results)) as Hle.
  pose proof (count_nonneg passing (metric_values results)) as Hge.
  assert (E : count passing (metric_values results) = 0%Z) by lia.
  rewrite E, H0. now rewrite zero_ratio.
Qed.

Lemma calculateScore_no_metric_witness :
  calculateScore (VObj []) = Ok NaN /\ calculateGrade NaN = VUndef.
Proof.
  apply (calculateScore_no_metric (VObj [])); reflexivity.
Defined.

(** C10.  Every metric value that is not a string is counted in the total,
    whatever its type, and is counted as passed exactly when it is truthy;
    [calculateScore] returns [round(100 * passed / total)] of these two
    counts.  In particular [undefined] and [null] are counted, as
    failures. *)
Theorem calculateScore_counts_non_strings results :
  wf results = true ->
  calculateScore results
  = Ok (Math_round
          (num_div
             (num_mul
                (of_Z (count (fun v => negb (is_string v) && truthy v)
                         (metric_values results)))
                (of_Z 100))
             (of_Z (count (fun v => negb (is_string v))
                      (metric_values results)))))
  /\ (forall v, is_string v = true <-> typeof v = "string")
  /\ negb (is_string VUndef) = true /\ negb (is_string VNull) = true
  /\ truthy VUndef = false /\ truthy VNull = false.
Proof.
  intros Hwf. split; [now apply calculateScore_counts|].
  split; [|repeat split].
  intros v. destruct v; simpl; split; (reflexivity || discriminate).
Qed.

Example score_undefined_metrics :
  calculateScore undefined_metrics = Ok (of_Z 50).
Proof. reflexivity. Qed.

Lemma calculateScore_counts_non_strings_witness :
  calculateScore undefined_metrics = Ok (of_Z 50).
Proof.
  apply (calculateScore_counts_non_strings undefined_metrics). reflexivity.
Defined.

(** ** Grades *)

(** C5.  For an integer score between 0 and 100, [calculateGrade] is the
    entry of [E, D, C, B, A, Z] at index [floor(score/20)]; the buckets are
    [0,20) E, [20,40) D, [40,60) C, [60,80) B, [80,100) A, and 100 is the
    only score graded Z. *)
Theorem calculateGrade_buckets z :
  (0 <= z <= 100)%Z ->
  calculateGrade (of_Z z) = nth (Z.to_nat (z / 20)) grades VUndef
  /\ ((0 <= z < 20)%Z -> calculateGrade (of_Z z) = VStr "E")
  /\ ((20 <= z < 40)%Z -> calculateGrade (of_Z z) = VStr "D")
  /\ ((40 <= z < 60)%Z -> calculateGrade (of_Z z) = VStr "C")
  /\ ((60 <= z < 80)%Z -> calculateGrade (of_Z z) = VStr "B")
  /\ ((80 <= z < 100)%Z -> calculateGrade (of_Z z) = VStr "A")
  /\ (calculateGrade (of_Z z) = VStr "Z" <-> z = 100%Z).
Proof.
  intros Hz. rewrite calculateGrade_of_Z.
  assert (Hq : (0 <= z / 20 <= 5)%Z).
  { split; [apply Z.div_pos; lia | apply Z.div_le_upper_bound; lia]. }
  destruct (Z.leb_spec 0 (z / 20)) as [_|]; [|lia].
  assert (H1 := Z.mul_div_le z 20 ltac:(lia)).
  assert (H2 := Z.mul_succ_div_gt z 20 ltac:(lia)). unfold Z.succ in H2.
  assert (Hc : (z / 20 = 0 \/ z / 20 = 1 \/ z / 20 = 2 \/ z / 20 = 3
                \/ z / 20 = 4 \/ z / 20 = 5)%Z) by lia.
  destruct Hc as [E|[E|[E|[E|[E|E]]]]]; rewrite E in *; simpl;
    repeat split; intros; try reflexivity; try discriminate; lia.
Qed.

Lemma calculateGrade_buckets_witness :
  calculateGrade (of_Z 100) = VStr "Z" <-> 100%Z = 100%Z.
Proof.
  apply (calculateGrade_buckets 100). lia.
Defined.

(** ** Ranking *)

(** *** Order on numbers and strings *)

Ltac q_bools :=
  rewrite ?negb_true_iff, ?negb_false_iff in *;
  repeat match goal with
    | H : Qle_bool _ _ = true |- _ => apply Qle_bool_iff in H
    | H : Qle_bool _ _ = false |- _ =>
        apply not_true_iff_false in H; rewrite Qle_bool_iff in H;
        apply Qnot_le_lt in H
    | |- Qle_bool _ _ = true => apply Qle_bool_iff
    | |- Qle_bool _ _ = false =>
        apply not_true_iff_false; rewrite Qle_bool_iff; apply Qlt_not_le
    end.

Ltac num_cases :=
  repeat match goal with
    | n : number |- _ => destruct n as [|[]|?]
    end;
  simpl in *; try congruence; q_bools; try lra.

Lemma num_lt_asym a b : num_lt a b = true -> num_lt b a = false.
Proof. intros. num_cases. Qed.

Lemma num_lt_trans a b c :
  num_lt a b = true -> num_lt b c = true -> num_lt a c = true.
Proof. intros. num_cases. Qed.

Lemma num_lt_same a b c :
  is_nan c = false ->
  num_lt a b = true -> num_lt b c = false -> num_lt c b = false ->
  num_lt a c = true.
Proof. intros. num_cases. Qed.

Lemma num_same_lt a b c :
  is_nan a = false ->
  num_lt a b = false -> num_lt b a = false -> num_lt b c = true ->
  num_lt a c = true.
Proof. intros. num_cases. Qed.

Lemma num_same_trans a b c :
  is_nan b = false ->
  num_lt a b = false -> num_lt b c = false -> num_lt a c = false.
Proof. intros. num_cases. Qed.

Lemma string_compare_trans a b c :
  (a ?= b) = Lt -> (b ?= c) = Lt -> (a ?= c) = Lt.
Proof.
  intros H1 H2.
  apply OrderedTypeEx.String_as_OT.cmp_lt.
  apply OrderedTypeEx.String_as_OT.cmp_lt in H1, H2.
  eapply OrderedTypeEx.String_as_OT.lt_trans; eassumption.
Qed.

Lemma string_compare_refl a : (a ?= a) = Eq.
Proof.
  destruct (a ?= a) eqn:E; [reflexivity| |];
    pose proof (String.compare_antisym a a) as H; rewrite E in H;
    discriminate.
Qed.

Lemma string_leb_trans a b c :
  (a <=? b) = true -> (b <=? c) = true -> (a <=? c) = true.
Proof.
  unfold String.leb.
  destruct (a ?= b) eqn:E1; try discriminate;
    destruct (b ?= c) eqn:E2; try discriminate; intros _ _.
  - apply String.compare_eq_iff in E1, E2. subst. now rewrite string_compare_refl.
  - apply String.compare_eq_iff in E1. subst. now rewrite E2.
  - apply String.compare_eq_iff in E2. subst. now rewrite E1.
  - now rewrite (string_compare_trans a b c).
Qed.

Lemma string_ltb_leb a b :
  (if (a <? b) then true else negb (b <? a)) = (a <=? b).
Proof.
  unfold String.ltb, String.leb. rewrite (String.compare_antisym b a).
  destruct (a ?= b); reflexivity.
Qed.

(** *** The comparator *)

Lemma compareCards_le a b :
  (compareCards a b <= 0)%Z <-> bank_order a b.
Proof.
  unfold compareCards, bank_order.
  rewrite <- (string_ltb_leb (name a) (name b)).
  destruct (num_lt (score a) (score b)) eqn:E1.
  - rewrite (num_lt_asym _ _ E1). split; [lia|].
    intros [H|[H _]]; discriminate.
  - destruct (num_lt (score b) (score a)) eqn:E2.
    + split; [now left | lia].
    + destruct (name a <? name b).
      * split; [right; auto | lia].
      * destruct (name b <? name a); simpl.
        -- split; [lia | intros [H|[_ [_ H]]]; discriminate].
        -- split; [right; auto | lia].
Qed.

Lemma bank_order_total a b : bank_order a b \/ bank_order b a.
Proof.
  unfold bank_order.
  destruct (num_lt (score b) (score a)) eqn:E1; [left; left; reflexivity|].
  destruct (num_lt (score a) (score b)) eqn:E2; [right; left; reflexivity|].
  destruct (String.leb_total (name a) (name b)) as [H|H];
    [left | right]; right; auto.
Qed.

Lemma bank_order_trans a b c :
  scored a -> scored b -> scored c ->
  bank_order a b -> bank_order b c -> bank_order a c.
Proof.
  unfold scored, bank_order.
  intros Ha Hb Hc [H1|[H1 [H1' N1]]] [H2|[H2 [H2' N2]]].
  - left. eapply num_lt_trans; eassumption.
  - left. now apply (num_same_lt _ (score b)).
  - left. now apply (num_lt_same _ (score b)).
  - right. repeat split.
    + now apply (num_same_trans _ (score b)).
    + now apply (num_same_trans _ (score b)).
    + eapply string_leb_trans; eassumption.
Qed.

Lemma bank_order_antisym a b :
  bank_order a b -> bank_order b a ->
  num_lt (score a) (score b) = false
  /\ num_lt (score b) (score a) = false
  /\ name a = name b.
Proof.
  unfold bank_order.
  intros [H1|[H1 [H1' N1]]] [H2|[H2 [H2' N2]]];
    try (pose proof (num_lt_asym _ _ H1); congruence);
    try (pose proof (num_lt_asym _ _ H2); congruence).
  repeat split; try assumption. now apply String.leb_antisym.
Qed.

(** *** Insertion sort *)

Section ArraySortFacts.
Context {A : Type}.
Variable cmp : A -> A -> Z.
Variable domain : A -> Prop.

Let le (x y : A) : Prop := (cmp x y <= 0)%Z.

Hypothesis le_total : forall x y, le x y \/ le y x.
Hypothesis le_trans :
  forall x y z, domain x -> domain y -> domain z ->
                le x y -> le y z -> le x z.

Lemma insert_Permutation x l : Permutation (x :: l) (insert cmp x l).
Proof.
  induction l as [|y l IH]; simpl; [reflexivity|].
  destruct (cmp x y <=? 0)%Z; [reflexivity|].
  rewrite perm_swap. now apply perm_skip.
Qed.

Lemma Array_sort_Permutation l : Permutation l (Array_sort cmp l).
Proof.
  induction l as [|x l IH]; simpl; [reflexivity|].
  rewrite <- insert_Permutation. now apply perm_skip.
Qed.

Lemma insert_sorted x l :
  domain x -> Forall domain l ->
  StronglySorted (fun a b => (cmp a b <= 0)%Z) l ->
  StronglySorted (fun a b => (cmp a b <= 0)%Z) (insert cmp x l).
Proof.
  intros Hx Hd Hs. induction Hs as [|y l Hs IH Hy]; simpl.
  - repeat constructor.
  - inversion Hd as [|? ? Hdy Hdl]; subst.
    destruct (Z.leb_spec (cmp x y) 0) as [Hle|Hgt].
    + constructor; [now constructor|].
      constructor; [assumption|].
      rewrite Forall_forall in *. intros z Hz.
      apply (le_trans x y z);
        [assumption | assumption | now apply Hdl | exact Hle | now apply Hy].
    + constructor; [now apply IH|].
      rewrite <- (insert_Permutation x l).
      constructor; [|assumption].
      destruct (le_total x y) as [H|H]; [unfold le in H; lia | exact H].
Qed.

Lemma Array_sort_sorted l :
  Forall domain l ->
  StronglySorted (fun a b => (cmp a b <= 0)%Z) (Array_sort cmp l).
Proof.
  induction l as [|x l IH]; intros Hd; simpl; [constructor|].
  inversion Hd as [|? ? Hx Hl]; subst.
  apply insert_sorted; auto.
  rewrite <- (Array_sort_Permutation l). assumption.
Qed.
End ArraySortFacts.

Lemma StronglySorted_iff {A} (R R' : A -> A -> Prop) l :
  (forall a b, R a b <-> R' a b) ->
  StronglySorted R l -> StronglySorted R' l.
Proof.
  intros HR Hs. induction Hs as [|x l Hs IH Hx]; constructor; auto.
  rewrite Forall_forall in *. intros y Hy. apply HR. auto.
Qed.

Example sortCards_ranking_example :
  map (fun c => (name c, score c)) (sortCards ranking_example)
  = [("A", of_Z 90); ("A", of_Z 80); ("B", of_Z 80)].
Proof. reflexivity. Qed.

(** C8.  [bank_order] -- score descending, then name ascending -- is a
    total order on cards that have a score (total, transitive, and two
    cards ranked both ways agree on score and name), and [sortCards]
    returns a permutation of its input sorted by it. *)
Theorem sortCards_total_order cards :
  Forall scored cards ->
  Permutation cards (sortCards cards)
  /\ StronglySorted bank_order (sortCards cards)
  /\ (forall a b, bank_order a b \/ bank_order b a)
  /\ (forall a b c, scored a -> scored b -> scored c ->
        bank_order a b -> bank_order b c -> bank_order a c)
  /\ (forall a b, bank_order a b -> bank_order b a ->
        num_lt (score a) (score b) = false
        /\ num_lt (score b) (score a) = false
        /\ name a = name b).
Proof.
  intros Hs. split; [|split; [|split; [|split]]].
  - apply Array_sort_Permutation.
  - apply (StronglySorted_iff (fun a b => (compareCards a b <= 0)%Z)).
    + apply compareCards_le.
    + apply (Array_sort_sorted compareCards scored); [| |assumption].
      * intros x y. rewrite !compareCards_le. apply bank_order_total.
      * intros x y z Hx Hy Hz. rewrite !compareCards_le.
        now apply bank_order_trans.
  - apply bank_order_total.
  - apply bank_order_trans.
  - apply bank_order_antisym.
Qed.

Lemma sortCards_total_order_witness :
  Permutation ranking_example (sortCards ranking_example)
  /\ StronglySorted bank_order (sortCards ranking_example).
Proof.
  assert (H : Forall scored ranking_example)
    by (repeat constructor).
  destruct (sortCards_total_order ranking_example H) as [Hp [Hs _]].
  split; assumption.
Defined.

(** ** Normalizer *)

Lemma bind_Ok {A B} (c : res A) (k : A -> res B) b :
  bind c k = Ok b -> exists a, c = Ok a /\ k a = Ok b.
Proof. destruct c; simpl; [eauto | discriminate]. Qed.

(** Splits a hypothesis [x <- c ;; ... = Ok r] into the equations of its
    steps. *)
Ltac bind_inv H :=
  repeat first
    [ progress cbn [bind set update String.eqb Ascii.eqb Bool.eqb ref] in H
    | let a := fresh "v" in
      let E := fresh "E" in
      apply bind_Ok in H; destruct H as (a & E & H) ].

(** *** Whole tokens in the joined sources *)

Lemma prefix_cons a c s1 s2 :
  prefix (String a s1) (String c s2) = (Ascii.eqb a c && prefix s1 s2)%bool.
Proof.
  cbn [prefix]. destruct (ascii_dec a c) as [->|Hne].
  - now rewrite Ascii.eqb_refl.
  - apply Ascii.eqb_neq in Hne. now rewrite Hne.
Qed.

Lemma prefix_nil_r s : prefix s "" = (s =? "").
Proof. destruct s; reflexivity. Qed.

Lemma prefix_nil_l s : prefix "" s = true.
Proof. destruct s; reflexivity. Qed.

Lemma includes_cons c s e :
  includes (String c s) e = (prefix e (String c s) || includes s e)%bool.
Proof. cbn [includes]. now destruct (prefix e (String c s)). Qed.

Lemma prefix_token w t rest :
  no_space w = true -> no_space t = true ->
  prefix (w ++ " ") (t ++ String " " rest) = (w =? t).
Proof.
  revert t. induction w as [|a w IH]; intros [|c t]; cbn [append no_space].
  - intros _ _. rewrite prefix_cons, prefix_nil_l. reflexivity.
  - rewrite andb_true_iff, negb_true_iff. intros _ [Hc _].
    rewrite prefix_cons, Ascii.eqb_sym, Hc. reflexivity.
  - rewrite andb_true_iff, negb_true_iff. intros [Ha _] _.
    rewrite prefix_cons, Ha. reflexivity.
  - rewrite !andb_true_iff. intros [_ Hw] [_ Ht].
    rewrite prefix_cons, IH by assumption. reflexivity.
Qed.

Lemma includes_skip t rest p :
  no_space t = true ->
  includes (t ++ rest) (String " " p) = includes rest (String " " p).
Proof.
  induction t as [|c t IH]; cbn [append no_space]; [reflexivity|].
  rewrite andb_true_iff, negb_true_iff. intros [Hc Ht].
  rewrite includes_cons, prefix_cons, Ascii.eqb_sym, Hc. simpl.
  now apply IH.
Qed.

Lemma includes_spaced tokens w :
  Forall (fun t => no_space t = true) tokens -> no_space w = true ->
  includes (" " ++ spaced tokens) (" " ++ w ++ " ")
  = existsb (String.eqb w) tokens.
Proof.
  intros Hts Hw. induction Hts as [|t tokens Ht Hts IH].
  - change (" " ++ spaced []) with " ".
    change (" " ++ w ++ " ") with (String " " (w ++ " ")).
    rewrite includes_cons, prefix_cons, prefix_nil_r.
    cbn [includes]. rewrite prefix_nil_r.
    destruct w; reflexivity.
  - change (" " ++ spaced (t :: tokens))
      with (String " " (t ++ String " " (spaced tokens))).
    change (" " ++ w ++ " ") with (String " " (w ++ " ")).
    rewrite includes_cons, prefix_cons, Ascii.eqb_refl.
    rewrite prefix_token by assumption.
    rewrite includes_skip by assumption.
    cbn [existsb andb]. f_equal. exact IH.
Qed.

Lemma append_assoc (a b c : string) : (a ++ b) ++ c = a ++ (b ++ c).
Proof. induction a as [|x a IH]; simpl; [reflexivity | now rewrite IH]. Qed.

Lemma concat_spaced tokens :
  tokens <> [] -> concat " " tokens ++ " " = spaced tokens.
Proof.
  induction tokens as [|t tokens IH]; [congruence|]. intros _.
  destruct tokens as [|t' tokens].
  - reflexivity.
  - change (concat " " (t :: t' :: tokens))
      with (t ++ " " ++ concat " " (t' :: tokens)).
    change (spaced (t :: t' :: tokens))
      with (t ++ " " ++ spaced (t' :: tokens)).
    rewrite <- IH by discriminate.
    now rewrite !append_assoc.
Qed.

Lemma protectsb_spec tokens : protectsb tokens = true <-> protects tokens.
Proof.
  unfold protectsb, protects.
  rewrite andb_true_iff, negb_true_iff, forallb_forall. split.
  - intros [Hl Hw]. split.
    + intros ->. discriminate.
    + intros w Hin Hw'. specialize (Hw w Hin).
      apply negb_true_iff in Hw. apply not_true_iff_false in Hw. apply Hw.
      apply existsb_exists. exists w. split; [assumption | apply String.eqb_refl].
  - intros [Hl Hw]. split.
    + destruct tokens; [congruence | reflexivity].
    + intros w Hin. apply negb_true_iff. apply not_true_iff_false.
      intros Hex. apply existsb_exists in Hex. destruct Hex as [t [Ht E]].
      apply String.eqb_eq in E. subst. now apply (Hw t).
Qed.

(** *** The frame-ancestors analysis of [parseCsp] *)

Lemma decimal_not_length n : decimal n <> "length".
Proof.
  unfold decimal. intros H.
  pose proof (NilEmpty.usu (Nat.to_uint n)) as E. rewrite H in E.
  discriminate E.
Qed.

Lemma get_array_length l :
  get (VArr l) "length" = Ok (VNum (of_Z (Z.of_nat (List.length l)))).
Proof.
  unfold get.
  assert (E : assoc "length" (entries (VArr l)) = None).
  { apply assoc_None. simpl. rewrite map_fst_combine.
    - unfold index_keys. intros Hin. apply in_map_iff in Hin.
      destruct Hin as [i [Hi _]]. now apply (decimal_not_length i).
    - unfold index_keys. now rewrite length_map, length_seq. }
  now rewrite E.
Qed.

Lemma join_tokens nts tokens sep :
  join nts (map VStr tokens) sep = concat sep tokens.
Proof.
  unfold join. f_equal. rewrite map_map. simpl. apply map_id.
Qed.

(** With a list of tokens under [frame-ancestors], the loop of [parseCsp]
    leaves [framingProtection] true exactly when the tokens protect. *)
Lemma parseCsp_tokens nts results csp tokens :
  get csp "frame-ancestors" = Ok (VArr (map VStr tokens)) ->
  Forall (fun t => no_space t = true) tokens ->
  parseCsp nts results csp
  = (xssProtection <- ref results .> "contentSecurityPolicy" .> "result" ;;
     xss <- js_or xssProtection (ref results .> "xXssProtection" .> "result") ;;
     framing <- js_or (VBool (protectsb tokens))
                  (ref results .> "xFrameOptions" .> "result") ;;
     Ok (VObj [("XSS Protection", xss); ("Framing Protection", framing)])).
Proof.
  intros Hfa Htok. unfold parseCsp. cbn [ref bind]. rewrite Hfa.
  cbn [bind js_and truthy]. rewrite get_array_length. cbn [bind truthy].
  unfold of_Z. rewrite Qis_zero_inject.
  destruct tokens as [|t tokens]; [reflexivity|].
  cbn [List.length map Z.of_nat Z.eqb negb call_join bind].
  rewrite <- (map_cons VStr t tokens), join_tokens.
  rewrite (concat_spaced (t :: tokens)) by discriminate.
  change " data: " with (" " ++ "data:" ++ " ").
  change " http: " with (" " ++ "http:" ++ " ").
  change " https: " with (" " ++ "https:" ++ " ").
  cbn [for_each].
  rewrite !includes_spaced by (assumption || reflexivity).
  unfold protectsb, wildcards. cbn [List.length Nat.eqb negb forallb andb].
  generalize (existsb (String.eqb "data:") (t :: tokens)) as d.
  generalize (existsb (String.eqb "http:") (t :: tokens)) as h.
  generalize (existsb (String.eqb "https:") (t :: tokens)) as hs.
  intros [] [] []; reflexivity.
Qed.

(** Without [frame-ancestors] (absent, or any falsy value) the flag stays
    false. *)
Lemma parseCsp_absent nts results csp fa :
  get csp "frame-ancestors" = Ok fa -> truthy fa = false ->
  parseCsp nts results csp
  = (xssProtection <- ref results .> "contentSecurityPolicy" .> "result" ;;
     xss <- js_or xssProtection (ref results .> "xXssProtection" .> "result") ;;
     framing <- js_or (VBool false)
                  (ref results .> "xFrameOptions" .> "result") ;;
     Ok (VObj [("XSS Protection", xss); ("Framing Protection", framing)])).
Proof.
  intros Hfa Hf. unfold parseCsp. cbn [ref bind]. rewrite Hfa.
  cbn [bind]. unfold js_and at 1. rewrite Hf. cbn [bind]. rewrite Hf.
  reflexivity.
Qed.

(** *** What [processResults] returns *)

Lemma assoc_update_same {A} (o : list (string * A)) k x :
  assoc k (update o k x) = Some x.
Proof.
  induction o as [|[k' x'] o IH]; simpl.
  - now rewrite String.eqb_refl.
  - destruct (String.eqb_spec k' k) as [->|Hne]; simpl.
    + now rewrite String.eqb_refl.
    + apply String.eqb_neq in Hne. now rewrite Hne.
Qed.

Lemma assoc_update_other {A} (o : list (string * A)) k k' x :
  k' <> k -> assoc k' (update o k x) = assoc k' o.
Proof.
  intros Hne. induction o as [|[k0 x0] o IH]; simpl.
  - destruct (String.eqb_spec k k'); [congruence | reflexivity].
  - destruct (String.eqb_spec k0 k) as [->|Hne0]; simpl.
    + destruct (String.eqb_spec k k'); [congruence | reflexivity].
    + now rewrite IH.
Qed.


Lemma get_Ok_present v k x : get v k = Ok x -> present v = true.
Proof. destruct v; simpl; (discriminate || reflexivity). Qed.

Lemma not_index k :
  NilEmpty.uint_of_string k = None -> forall n, decimal n <> k.
Proof.
  intros Hk n H. unfold decimal in H.
  pose proof (NilEmpty.usu (Nat.to_uint n)) as E. rewrite H in E.
  congruence.
Qed.

Lemma assoc_index_keys {A} k n (l : list A) :
  (forall i, decimal i <> k) -> assoc k (combine (index_keys n) l) = None.
Proof.
  intros Hk. apply assoc_None. intros Hin.
  apply in_map_iff in Hin. destruct Hin as [[k' x] [E Hin]].
  simpl in E. subst k'. apply in_combine_l in Hin.
  unfold index_keys in Hin. apply in_map_iff in Hin.
  destruct Hin as [i [Hi _]]. now apply (Hk i).
Qed.

(** A property with a name (not an index, not [length]) that holds a
    readable value is a property of an object. *)
Lemma get_named_object v k x :
  (forall i, decimal i <> k) -> (k =? "length") = false ->
  get v k = Ok x -> present x = true -> exists o, v = VObj o.
Proof.
  intros Hk Hl. destruct v; simpl; try discriminate; unfold get;
    cbn [entries assoc]; rewrite ?assoc_index_keys by assumption;
    rewrite ?Hl; try (intros [= <-]; discriminate).
  eauto.
Qed.

Lemma parseCsp_shape nts results csp v :
  parseCsp nts results csp = Ok v ->
  exists xss framing,
    v = VObj [("XSS Protection", xss); ("Framing Protection", framing)].
Proof.
  intros H. unfold parseCsp in H. bind_inv H.
  injection H as <-. eauto.
Qed.

Example sample_shape nts stn :
  exists response results',
    processResults nts stn (sample_bank sample_results) sample_results
    = Ok (response, results')
    /\ shape response = returned_shape.
Proof. eexists. eexists. split; reflexivity. Qed.

(** C1.  Whenever [processResults] returns, the returned object has the
    same five categories with the same metric names, and no "Miscellaneous
    Headers" category: that category, with its three metrics, is written
    into the argument instead (index.js 195 assigns to [results], not to
    [response]). *)
Theorem processResults_omits_miscellaneous_headers
    nts stn bank results response results' :
  processResults nts stn bank results = Ok (response, results') ->
  shape response = returned_shape
  /\ get response "Miscellaneous Headers" = Ok VUndef
  /\ exists headers,
       get results' "Miscellaneous Headers" = Ok headers
       /\ keys_of headers = header_metrics.
Proof.
  intros H. unfold processResults in H. bind_inv H.
  injection H as <- <-.
  apply bind_Ok in E12. destruct E12 as (data & _ & E12).
  apply parseCsp_shape in E12. destruct E12 as (xss & framing & ->).
  split; [reflexivity|]. split; [reflexivity|].
  apply bind_Ok in E. destruct E as (entry & E & Er).
  destruct (get_named_object results "upgradeToHttps" entry) as [o ->];
    [now apply not_index | reflexivity | assumption
    | now apply (get_Ok_present _ _ _ Er) |].
  cbn [set] in E19. injection E19 as <-.
  eexists. split.
  - unfold get. cbn [entries]. rewrite assoc_update_same. reflexivity.
  - reflexivity.
Qed.

Lemma processResults_omits_miscellaneous_headers_witness :
  exists response results',
    processResults (fun _ => "") (fun _ => NaN)
      (sample_bank sample_results) sample_results = Ok (response, results')
    /\ shape response = returned_shape
    /\ get response "Miscellaneous Headers" = Ok VUndef
    /\ exists headers,
         get results' "Miscellaneous Headers" = Ok headers
         /\ keys_of headers = header_metrics.
Proof.
  eexists. eexists. split; [reflexivity|].
  apply (processResults_omits_miscellaneous_headers
           (fun _ => "") (fun _ => NaN)
           (sample_bank sample_results) sample_results).
  reflexivity.
Defined.

(** *** HSTS *)

(** C7 as stated fails when the HSTS result is absent: the two derived
    metrics are then [undefined], not [false]. *)
Lemma hsts_absent_counterexample :
  ref raw_hsts_without_result .> "hsts" .> "result" = Ok VUndef
  /\ forall nts stn, exists response results',
       processResults nts stn (sample_bank raw_hsts_without_result)
         raw_hsts_without_result = Ok (response, results')
       /\ ref response .> "HTTPS" .> "HSTS Long Length" = Ok VUndef
       /\ ref response .> "HTTPS" .> "HSTS Preloaded" = Ok VUndef
       /\ ref response .> "HTTPS" .> "HSTS Long Length" <> Ok (VBool false)
       /\ ref response .> "HTTPS" .> "HSTS Preloaded" <> Ok (VBool false).
Proof.
  split; [reflexivity|]. intros nts stn.
  eexists. eexists. split; [reflexivity|].
  repeat split; try reflexivity; discriminate.
Qed.

(** C7, amended.  When the HSTS result is falsy, "HSTS Long Length" and
    "HSTS Preloaded" are that very value, whatever the age and preload
    data: [false] when the result is [false], [undefined] when it is
    absent.  When it is truthy, "HSTS Long Length" is true exactly when the
    age (a number of days) is at least 180, and "HSTS Preloaded" is the
    preload flag. *)
Theorem hsts_metrics nts stn bank results response results' h :
  processResults nts stn bank results = Ok (response, results') ->
  ref results .> "hsts" .> "result" = Ok h ->
  exists long preloaded,
    ref response .> "HTTPS" .> "HSTS Long Length" = Ok long
    /\ ref response .> "HTTPS" .> "HSTS Preloaded" = Ok preloaded
    /\ (truthy h = false -> long = h /\ preloaded = h)
    /\ (h = VBool false -> long = VBool false /\ preloaded = VBool false)
    /\ (h = VUndef -> long = VUndef /\ preloaded = VUndef)
    /\ (truthy h = true ->
        forall days flag,
          ref results .> "hsts" .> "data" .> "age" = Ok (VNum (Fin days)) ->
          ref results .> "hsts" .> "data" .> "preloaded" = Ok flag ->
          (long = VBool true <-> (180 <= days)%Q)
          /\ long = VBool (Qle_bool 180 days)
          /\ preloaded = flag).
Proof.
  intros H Hh. unfold processResults in H. bind_inv H.
  injection H as <- _. cbn [ref bind] in Hh.
  rewrite Hh in E3, E4. cbn [bind] in E3, E4. unfold js_and in E3, E4.
  exists v3, v4. split; [reflexivity|]. split; [reflexivity|].
  assert (F : truthy h = false -> v3 = h /\ v4 = h).
  { intros Hf. rewrite Hf in E3, E4. split; congruence. }
  split; [exact F|].
  split; [intros ->; now apply F|].
  split; [intros ->; now apply F|].
  intros Ht days flag Hage Hflag. cbn [ref bind] in Hage, Hflag.
  rewrite Ht in E3, E4. rewrite Hage in E3. rewrite Hflag in E4.
  cbn [bind ToNumber num_le of_Z] in E3.
  injection E3 as <-. injection E4 as <-.
  change (inject_Z 180) with 180%Q.
  split; [|split; reflexivity].
  rewrite <- Qle_bool_iff. split; [intros [= ->] | intros ->]; reflexivity.
Qed.

Lemma hsts_metrics_witness :
  exists response results' long preloaded,
    processResults (fun _ => "") (fun _ => NaN)
      (sample_bank sample_results) sample_results = Ok (response, results')
    /\ ref sample_results .> "hsts" .> "result" = Ok (VBool true)
    /\ ref response .> "HTTPS" .> "HSTS Long Length" = Ok long
    /\ ref response .> "HTTPS" .> "HSTS Preloaded" = Ok preloaded
    /\ long = VBool (Qle_bool 180 365)
    /\ preloaded = VBool false.
Proof.
  destruct (hsts_metrics (fun _ => "") (fun _ => NaN)
              (sample_bank sample_results) sample_results
              _ _ (VBool true) eq_refl eq_refl)
    as (long & preloaded & Hl & Hp & _ & _ & _ & Ht).
  destruct (Ht eq_refl 365%Q (VBool false) eq_refl eq_refl) as (_ & El & Ep).
  do 2 eexists. exists long, preloaded.
  split; [reflexivity|]. split; [reflexivity|].
  split; [exact Hl|]. split; [exact Hp|]. split; assumption.
Defined.

(** *** Framing protection *)

Example framing_https_only nts stn :
  (p <- processResults nts stn (sample_bank sample_results)
          (sample_raw sample_hsts (sample_csp ["https:"]) (check (VBool false))) ;;
   ref (fst p) .> "CSP" .> "Framing Protection") = Ok (VBool false).
Proof. reflexivity. Qed.

Example framing_host_source nts stn :
  (p <- processResults nts stn (sample_bank sample_results)
          (sample_raw sample_hsts (sample_csp ["self.example.com"])
             (check (VBool false))) ;;
   ref (fst p) .> "CSP" .> "Framing Protection") = Ok (VBool true).
Proof. reflexivity. Qed.

Example framing_substring_only nts stn :
  (p <- processResults nts stn (sample_bank sample_results)
          (sample_raw sample_hsts (sample_csp ["https://a.example"; "xhttp:"])
             (check (VBool false))) ;;
   ref (fst p) .> "CSP" .> "Framing Protection") = Ok (VBool true).
Proof. reflexivity. Qed.

Example framing_empty_defers nts stn x :
  (p <- processResults nts stn (sample_bank sample_results)
          (sample_raw sample_hsts (sample_csp []) (check x)) ;;
   ref (fst p) .> "CSP" .> "Framing Protection") = Ok x.
Proof. reflexivity. Qed.

(** C6.  "Framing Protection" is true exactly when the tokens of
    [frame-ancestors] protect (there is at least one, and none of them is,
    as a whole token, [data:], [http:] or [https:]) or the X-Frame-Options
    check passed.  With an empty or absent [frame-ancestors] it is the
    X-Frame-Options result. *)
Theorem framing_protection nts stn bank results response results' data xfo :
  processResults nts stn bank results = Ok (response, results') ->
  ref results .> "contentSecurityPolicy" .> "data" = Ok data ->
  ref results .> "xFrameOptions" .> "result" = Ok xfo ->
  exists framing,
    ref response .> "CSP" .> "Framing Protection" = Ok framing
    /\ (forall tokens,
          get data "frame-ancestors" = Ok (VArr (map VStr tokens)) ->
          Forall (fun t => no_space t = true) tokens ->
          (framing = VBool true <-> protects tokens \/ xfo = VBool true)
          /\ (tokens = [] -> framing = xfo))
    /\ (forall fa,
          get data "frame-ancestors" = Ok fa -> truthy fa = false ->
          framing = xfo).
Proof.
  intros H Hdata Hxfo. unfold processResults in H. bind_inv H.
  injection H as <- _. cbn [ref bind] in Hdata, Hxfo.
  rewrite Hdata in E12. cbn [bind] in E12.
  destruct (parseCsp_shape _ _ _ _ E12) as (xss & framing & ->).
  exists framing. split; [reflexivity|]. split.
  - intros tokens Hfa Htok.
    rewrite (parseCsp_tokens nts results data tokens Hfa Htok) in E12.
    bind_inv E12.
    match goal with
    | J : js_or (VBool _) _ = Ok _ |- _ =>
        rewrite Hxfo in J; unfold js_or in J; rename J into EJ
    end.
    injection E12 as _ <-.
    pose proof (protectsb_spec tokens) as Hp.
    destruct (protectsb tokens); cbn [truthy] in EJ; injection EJ as <-.
    + split.
      * split; [intros _; left; now apply Hp | reflexivity].
      * intros ->. destruct Hp as [Hp _]. destruct (Hp eq_refl) as [N _].
        now elim N.
    + split; [|reflexivity]. split.
      * intros ->. now right.
      * intros [P|Ex]; [|assumption]. apply Hp in P. discriminate.
  - intros fa Hfa Hf.
    rewrite (parseCsp_absent nts results data fa Hfa Hf) in E12.
    bind_inv E12.
    match goal with
    | J : js_or (VBool _) _ = Ok _ |- _ =>
        rewrite Hxfo in J; unfold js_or in J; rename J into EJ
    end.
    cbn [truthy] in EJ. injection EJ as <-. now injection E12 as _ <-.
Qed.

Lemma framing_protection_witness :
  exists response results' framing,
    processResults (fun _ => "") (fun _ => NaN)
      (sample_bank sample_results) sample_results = Ok (response, results')
    /\ ref response .> "CSP" .> "Framing Protection" = Ok framing
    /\ (framing = VBool true <-> protects ["'self'"] \/ VBool false = VBool true).
Proof.
  destruct (framing_protection (fun _ => "") (fun _ => NaN)
              (sample_bank sample_results) sample_results _ _ _ _
              eq_refl eq_refl eq_refl)
    as (framing & Hf & Ht & _).
  destruct (Ht ["'self'"] eq_refl) as [Hiff _].
  { repeat constructor. }
  do 2 eexists. exists framing.
  split; [reflexivity|]. split; [exact Hf | exact Hiff].
Defined.

(** *** Totality of [processResults] *)











(** ** History archive *)

(** *** Objects as lists of properties *)






Lemma lookup_update o k x k' :
  lookup (update o k x) k' = if k =? k' then x else lookup o k'.
Proof.
  unfold lookup. destruct (String.eqb_spec k k') as [->|Hne].
  - now rewrite assoc_update_same.
  - rewrite assoc_update_other by congruence. reflexivity.
Qed.

Lemma get_object o k : get (VObj o) k = Ok (lookup o k).
Proof.
  unfold get, lookup. cbn [entries].
  destruct (assoc k o); [reflexivity|]. now destruct (k =? "length").
Qed.



(** *** Serialization round trip *)







(** *** The name of the archive entry *)

Lemma no_dot_append a b : no_dot (a ++ b) = no_dot a && no_dot b.
Proof.
  induction a as [|c a IH]; simpl; [reflexivity|].
  now rewrite IH, andb_assoc.
Qed.

Lemma no_dot_decimal n : no_dot (decimal n) = true.
Proof.
  unfold decimal. generalize (Nat.to_uint n) as d.
  induction d; simpl; auto.
Qed.

Lemma no_dot_yearMonth year month : no_dot (yearMonth year month) = true.
Proof.
  unfold yearMonth. rewrite no_dot_append, no_dot_decimal.
  destruct (month <? 10)%nat; [rewrite no_dot_append|];
    now rewrite no_dot_decimal.
Qed.

Lemma indexOf_dot s rest :
  no_dot s = true ->
  indexOf (s ++ String "." rest) "." = Z.of_nat (String.length s).
Proof.
  induction s as [|c s IH]; cbn [append no_dot String.length].
  - intros _. cbn [indexOf]. now rewrite prefix_cons, prefix_nil_l.
  - rewrite andb_true_iff, negb_true_iff. intros [Hc Hs].
    cbn [indexOf]. rewrite prefix_cons, Ascii.eqb_sym, Hc. cbn [andb].
    rewrite IH by assumption.
    destruct (Z.ltb_spec (Z.of_nat (String.length s)) 0); lia.
Qed.

Lemma substring_append s t : substring 0 (String.length s) (s ++ t) = s.
Proof.
  induction s as [|c s IH]; simpl.
  - now destruct t.
  - now rewrite IH.
Qed.

Lemma scanDate_archive s :
  no_dot s = true -> scanDate (s ++ ".json") = s.
Proof.
  intros Hs. unfold scanDate, substring0.
  change ".json" with (String "." "json").
  rewrite indexOf_dot by assumption. rewrite Nat2Z.id.
  apply substring_append.
Qed.

(** *** The file store *)



Lemma append_inj p a b : p ++ a = p ++ b -> a = b.
Proof.
  induction p as [|c p IH]; simpl; [trivial|]. intros [= H]. now apply IH.
Qed.





(** *** The snapshot written by [createWebsite_archive] *)







(** *** Writing one entry of the history *)














(** *** Round trip *)

Example round_trip_example :
  (fs <- createWebsite_archive [] 2026 11 snapshot_example ;;
   history <- getHistory fs ;;
   ref history .> "nz" .> "Kiwi Bank" .> "202611")
  = Ok (VObj [("score", VNum (of_Z 67)); ("grade", VStr "B")]).
Proof. reflexivity. Qed.

Example results_with_gap_normalized nts stn :
  (p <- processResults nts stn (sample_bank raw_hsts_without_result)
          raw_hsts_without_result ;;
   Ok (fst p))
  = Ok results_with_gap.
Proof. reflexivity. Qed.

(** A result set with an [undefined] metric is outside the data model of
    the archive: serialization drops the metric, and the reloaded score is
    taken over fewer metrics. *)
Example round_trip_drops_undefined :
  calculateScore results_with_gap = Ok (of_Z 67)
  /\ (fs <- createWebsite_archive [] 2026 11 snapshot_with_gap ;;
      history <- getHistory fs ;;
      ref history .> "nz" .> "Kiwi Bank" .> "202611")
     = Ok (VObj [("score", VNum (of_Z 80)); ("grade", VStr "A")]).
Proof. repeat split. Qed.





(** * Properties of the rest of the program *)

(** ** [makeUrlSafe] *)

Example makeUrlSafe_example : makeUrlSafe "Bank & Trust's" = "bank---trusts".
Proof. reflexivity. Qed.

Example htmlEncode_example :
  htmlEncode (VStr "<a href='x'>Q&A</a>")
  = Ok (VStr "&lt;a href=&apos;x&apos;&gt;Q&amp;A&lt;/a&gt;").
Proof. reflexivity. Qed.

Ltac each_ascii c :=
  destruct c as [[] [] [] [] [] [] [] []].

Lemma each_char_append f a b :
  each_char f (a ++ b) = each_char f a ++ each_char f b.
Proof.
  induction a as [|c a IH]; cbn [append each_char]; [reflexivity|].
  now rewrite IH, append_assoc.
Qed.

Lemma each_char_ext f g s :
  (forall c, f c = g c) -> each_char f s = each_char g s.
Proof.
  intros H. induction s as [|c s IH]; cbn [each_char]; [reflexivity|].
  now rewrite H, IH.
Qed.

Lemma replace_global_append c r a b :
  replace_global c r (a ++ b) = replace_global c r a ++ replace_global c r b.
Proof.
  induction a as [|x a IH]; cbn [append replace_global]; [reflexivity|].
  destruct (Ascii.eqb x c); rewrite IH; [now rewrite append_assoc | reflexivity].
Qed.

(** A global replacement after a character-wise rewriting is a
    character-wise rewriting. *)
Lemma replace_global_each_char c r f s :
  replace_global c r (each_char f s)
  = each_char (fun a => replace_global c r (f a)) s.
Proof.
  induction s as [|x s IH]; cbn [each_char]; [reflexivity|].
  now rewrite replace_global_append, IH.
Qed.

Lemma toLowerCase_each_char s :
  toLowerCase s = each_char (fun c => String (lower_char c) "") s.
Proof.
  induction s as [|c s IH]; cbn [toLowerCase each_char append];
    [reflexivity | now rewrite IH].
Qed.

Lemma url_char_steps c :
  replace_global "'" ""
    (replace_global "&" "-"
       (replace_global " " "-" (String (lower_char c) "")))
  = url_char c.
Proof. each_ascii c; reflexivity. Qed.

Lemma makeUrlSafe_each_char s : makeUrlSafe s = each_char url_char s.
Proof.
  unfold makeUrlSafe. rewrite toLowerCase_each_char.
  rewrite !replace_global_each_char. apply each_char_ext.
  apply url_char_steps.
Qed.

Lemma append_nil_r s : s ++ "" = s.
Proof. induction s as [|c s IH]; simpl; [reflexivity | now rewrite IH]. Qed.

Lemma length_append a b :
  String.length (a ++ b) = (String.length a + String.length b)%nat.
Proof. induction a as [|c a IH]; simpl; [reflexivity | now rewrite IH]. Qed.

Lemma has_char_append c a b :
  has_char c (a ++ b) = has_char c a || has_char c b.
Proof.
  induction a as [|x a IH]; cbn [append has_char]; [reflexivity|].
  now rewrite IH, orb_assoc.
Qed.

Lemma has_char_each_char c f s :
  has_char c (each_char f s) = true ->
  exists a, has_char a s = true /\ has_char c (f a) = true.
Proof.
  induction s as [|x s IH]; cbn [each_char has_char]; [discriminate|].
  rewrite has_char_append. intros H. apply orb_true_iff in H.
  destruct H as [H|H].
  - exists x. now rewrite Ascii.eqb_refl.
  - destruct (IH H) as [a [Ha Hc]]. exists a. split; [|assumption].
    rewrite Ha. apply orb_true_r.
Qed.


Lemma url_char_clean a c :
  has_char c (url_char a) = true ->
  c <> " "%char /\ c <> "&"%char /\ c <> "'"%char /\ lower_char c = c.
Proof.
  each_ascii a;
    match goal with
    | |- context [url_char ?x] =>
        let v := eval vm_compute in (url_char x) in
        change (url_char x) with v
    end;
    cbn [has_char]; try discriminate; rewrite orb_false_r;
    intros H; apply Ascii.eqb_eq in H; subst c;
    repeat split; (discriminate || reflexivity).
Qed.

(** X2.  A URL name holds no space, no ampersand, no apostrophe and no
    capital letter. *)
Theorem makeUrlSafe_clean s c :
  has_char c (makeUrlSafe s) = true ->
  c <> " "%char /\ c <> "&"%char /\ c <> "'"%char /\ lower_char c = c.
Proof.
  rewrite makeUrlSafe_each_char. intros H.
  apply has_char_each_char in H. destruct H as [a [_ H]].
  now apply (url_char_clean a).
Qed.

Lemma makeUrlSafe_clean_witness :
  "k"%char <> " "%char /\ "k"%char <> "&"%char /\ "k"%char <> "'"%char
  /\ lower_char "k" = "k"%char.
Proof.
  apply (makeUrlSafe_clean "Bank & Trust's" "k"). reflexivity.
Defined.

Lemma url_char_idempotent c : each_char url_char (url_char c) = url_char c.
Proof. each_ascii c; reflexivity. Qed.

(** X3.  [makeUrlSafe] is idempotent: a URL name is its own URL name. *)
Theorem makeUrlSafe_idempotent s : makeUrlSafe (makeUrlSafe s) = makeUrlSafe s.
Proof.
  rewrite !makeUrlSafe_each_char.
  induction s as [|c s IH]; cbn [each_char]; [reflexivity|].
  now rewrite each_char_append, url_char_idempotent, IH.
Qed.

Lemma url_char_lower c : each_char url_char (String (lower_char c) "") = url_char c.
Proof. each_ascii c; reflexivity. Qed.

(** X4.  [makeUrlSafe] is not injective: names that differ in the case of
    their letters, in a space against an ampersand, or in an apostrophe get
    the same URL name (and so the same page path). *)
Theorem makeUrlSafe_collisions :
  (forall s, makeUrlSafe (toLowerCase s) = makeUrlSafe s)
  /\ (forall a b, makeUrlSafe (a ++ " " ++ b) = makeUrlSafe (a ++ "&" ++ b))
  /\ (forall a b, makeUrlSafe (a ++ "'" ++ b) = makeUrlSafe (a ++ b))
  /\ (forall a b, a ++ " " ++ b <> a ++ "&" ++ b).
Proof.
  split; [|split; [|split]].
  - intros s. rewrite !makeUrlSafe_each_char.
    induction s as [|c s IH]; cbn [toLowerCase each_char]; [reflexivity|].
    rewrite IH. f_equal.
    pose proof (url_char_lower c) as H. cbn [each_char] in H.
    now rewrite append_nil_r in H.
  - intros a b. rewrite !makeUrlSafe_each_char, !each_char_append.
    reflexivity.
  - intros a b. rewrite !makeUrlSafe_each_char, !each_char_append.
    reflexivity.
  - intros a b H. apply append_inj in H. discriminate.
Qed.

(** ** [htmlEncode] *)

Lemma concat_cons_cons sep x y l :
  concat sep (x :: y :: l) = x ++ sep ++ concat sep (y :: l).
Proof. reflexivity. Qed.

Lemma split_from_not_nil sep s skip cur : split_from sep s skip cur <> [].
Proof.
  revert skip cur. induction s as [|a s IH]; intros skip cur;
    cbn [split_from]; [discriminate|].
  destruct skip; [|apply IH]. destruct (prefix sep (String a s));
    [discriminate | apply IH].
Qed.

(** Splitting at a character and joining with [r] replaces every occurrence
    of the character by [r]. *)
Lemma split_join_char c r s cur :
  concat r (split_from (String c "") s 0 cur) = cur ++ replace_global c r s.
Proof.
  revert cur. induction s as [|a s IH]; intros cur;
    cbn [split_from replace_global].
  - cbn [concat]. now rewrite append_nil_r.
  - rewrite prefix_cons, prefix_nil_l, andb_true_r, Ascii.eqb_sym.
    cbn [String.length Nat.sub].
    destruct (Ascii.eqb a c).
    + destruct (split_from (String c "") s 0 "") as [|y l] eqn:E;
        [now apply split_from_not_nil in E|].
      rewrite concat_cons_cons. rewrite <- E, IH. reflexivity.
    + rewrite IH, append_assoc. reflexivity.
Qed.

Lemma html_char_steps c :
  replace_global "034" "&quot;"
    (replace_global "'" "&apos;"
       (replace_global ">" "&gt;"
          (replace_global "<" "&lt;"
             (replace_global "&" "&amp;" (String c "")))))
  = html_char c.
Proof. each_ascii c; reflexivity. Qed.

Lemma each_char_id s : each_char (fun c => String c "") s = s.
Proof.
  induction s as [|c s IH]; cbn [each_char append]; [reflexivity|].
  now rewrite IH.
Qed.

Lemma htmlEncode_chars s :
  htmlEncode (VStr s) = Ok (VStr (each_char html_char s)).
Proof.
  unfold htmlEncode, html_entities, double_quote.
  cbn [for_each call_split bind fst snd]. unfold split.
  rewrite !split_join_char. cbn [append].
  do 2 f_equal.
  rewrite <- (each_char_id s) at 1.
  rewrite !replace_global_each_char. apply each_char_ext.
  apply html_char_steps.
Qed.

(** X5.  On a string [htmlEncode] encodes each character once, in one
    pass: the five characters become their entities, every other character
    stays, and the ampersand of an entity is not encoded again.  The
    encoding of a concatenation is the concatenation of the encodings. *)
Theorem htmlEncode_each_char s :
  htmlEncode (VStr s) = Ok (VStr (each_char html_char s))
  /\ forall t, each_char html_char (s ++ t)
               = each_char html_char s ++ each_char html_char t.
Proof.
  split; [apply htmlEncode_chars | intros t; apply each_char_append].
Qed.

(** X6.  [htmlEncode] throws a [TypeError] on whatever is not a string:
    [undefined], [null], a boolean, a number, an array, an object. *)
Theorem htmlEncode_not_string v :
  is_string v = false -> htmlEncode v = Throw TypeError.
Proof. destruct v; (discriminate || reflexivity). Qed.

Lemma htmlEncode_not_string_witness : htmlEncode VUndef = Throw TypeError.
Proof. apply (htmlEncode_not_string VUndef). reflexivity. Defined.

Lemma html_char_clean a c :
  has_char c (html_char a) = true ->
  c <> "<"%char /\ c <> ">"%char /\ c <> "'"%char /\ c <> "034"%char.
Proof.
  unfold html_char.
  destruct (Ascii.eqb_spec a "&") as [->|N1];
    [intros H; repeat split; intros ->; discriminate|].
  destruct (Ascii.eqb_spec a "<") as [->|N2];
    [intros H; repeat split; intros ->; discriminate|].
  destruct (Ascii.eqb_spec a ">") as [->|N3];
    [intros H; repeat split; intros ->; discriminate|].
  destruct (Ascii.eqb_spec a "'") as [->|N4];
    [intros H; repeat split; intros ->; discriminate|].
  destruct (Ascii.eqb_spec a "034") as [->|N5];
    [intros H; repeat split; intros ->; discriminate|].
  cbn [has_char]. rewrite orb_false_r. intros H.
  apply Ascii.eqb_eq in H. subst c. repeat split; assumption.
Qed.

(** X7.  The text [htmlEncode] returns holds none of the characters
    [<], [>], ['] and the double quote. *)
Theorem htmlEncode_clean s out c :
  htmlEncode (VStr s) = Ok (VStr out) ->
  has_char c out = true ->
  c <> "<"%char /\ c <> ">"%char /\ c <> "'"%char /\ c <> "034"%char.
Proof.
  rewrite htmlEncode_chars.
  intros [= <-] H. apply has_char_each_char in H.
  destruct H as [a [_ H]]. now apply (html_char_clean a).
Qed.

Lemma htmlEncode_clean_witness :
  "l"%char <> "<"%char /\ "l"%char <> ">"%char /\ "l"%char <> "'"%char
  /\ "l"%char <> "034"%char.
Proof.
  apply (htmlEncode_clean "<b>" "&lt;b&gt;" "l"); reflexivity.
Defined.

Lemma html_char_cases a :
  (a = "&"%char /\ html_char a = "&amp;")
  \/ (a = "<"%char /\ html_char a = "&lt;")
  \/ (a = ">"%char /\ html_char a = "&gt;")
  \/ (a = "'"%char /\ html_char a = "&apos;")
  \/ (a = "034"%char /\ html_char a = "&quot;")
  \/ (a <> "&"%char /\ html_char a = String a "").
Proof.
  unfold html_char.
  destruct (Ascii.eqb_spec a "&") as [->|N1]; [now left|].
  destruct (Ascii.eqb_spec a "<") as [->|N2]; [right; now left|].
  destruct (Ascii.eqb_spec a ">") as [->|N3]; [do 2 right; now left|].
  destruct (Ascii.eqb_spec a "'") as [->|N4]; [do 3 right; now left|].
  destruct (Ascii.eqb_spec a "034") as [->|N5]; [do 4 right; now left|].
  do 5 right. now split.
Qed.

Lemma each_char_html_injective a b :
  each_char html_char a = each_char html_char b -> a = b.
Proof.
  revert b. induction a as [|x a IH]; intros [|y b]; cbn [each_char].
  - reflexivity.
  - intros H. exfalso.
    destruct (html_char_cases y) as [[_ E]|[[_ E]|[[_ E]|[[_ E]|[[_ E]|[_ E]]]]]];
      rewrite E in H; discriminate H.
  - intros H. exfalso.
    destruct (html_char_cases x) as [[_ E]|[[_ E]|[[_ E]|[[_ E]|[[_ E]|[_ E]]]]]];
      rewrite E in H; discriminate H.
  - intros H.
    destruct (html_char_cases x) as [[-> E]|[[-> E]|[[-> E]|[[-> E]|[[-> E]|[Nx E]]]]]];
      destruct (html_char_cases y) as [[-> F]|[[-> F]|[[-> F]|[[-> F]|[[-> F]|[Ny F]]]]]];
      rewrite E in H; try rewrite F in H; cbn [append] in H;
      try discriminate H;
      try (injection H as H; f_equal; now apply IH);
      try (injection H as H1 H; congruence).
    injection H as -> H. f_equal. now apply IH.
Qed.

(** X8.  [htmlEncode] loses nothing: two strings with the same encoding
    are the same string. *)
Theorem htmlEncode_injective a b :
  htmlEncode (VStr a) = htmlEncode (VStr b) -> a = b.
Proof.
  rewrite !htmlEncode_chars.
  intros [= H]. now apply each_char_html_injective.
Qed.

Lemma htmlEncode_injective_witness : "a<b" = "a<b".
Proof. apply (htmlEncode_injective "a<b" "a<b"). reflexivity. Defined.

(** ** [convertMonth] and the edges of [calculateGrade] *)

Lemma convertMonth_of_Z z :
  convertMonth (of_Z z)
  = if (0 <=? z)%Z then nth (Z.to_nat z) months VUndef else VUndef.
Proof. apply index_num_of_Z. Qed.

(** X9.  [convertMonth] names the months 1 to 12, each differently, and is
    [undefined] on every other number: 0, 13 and above, a negative number, a
    number that is not an integer, [NaN]. *)
Theorem convertMonth_range :
  (forall z, (1 <= z <= 12)%Z ->
     exists name, convertMonth (of_Z z) = VStr name /\ name <> "")
  /\ (forall z z', (1 <= z <= 12)%Z -> (1 <= z' <= 12)%Z ->
        convertMonth (of_Z z) = convertMonth (of_Z z') -> z = z')
  /\ (forall z, ~ (1 <= z <= 12)%Z -> convertMonth (of_Z z) = VUndef)
  /\ (forall q, Qeq_bool q (inject_Z (Qfloor q)) = false ->
        convertMonth (Fin q) = VUndef)
  /\ convertMonth NaN = VUndef.
Proof.
  split; [|split; [|split; [|split]]].
  - intros z Hz. rewrite convertMonth_of_Z.
    assert (Hc : (z = 1 \/ z = 2 \/ z = 3 \/ z = 4 \/ z = 5 \/ z = 6 \/ z = 7
                  \/ z = 8 \/ z = 9 \/ z = 10 \/ z = 11 \/ z = 12)%Z) by lia.
    repeat (destruct Hc as [->|Hc]; [eexists; split; [reflexivity | discriminate]|]).
    subst. eexists; split; [reflexivity | discriminate].
  - intros z z' Hz Hz'. rewrite !convertMonth_of_Z.
    assert (Hc : (z = 1 \/ z = 2 \/ z = 3 \/ z = 4 \/ z = 5 \/ z = 6 \/ z = 7
                  \/ z = 8 \/ z = 9 \/ z = 10 \/ z = 11 \/ z = 12)%Z) by lia.
    assert (Hc' : (z' = 1 \/ z' = 2 \/ z' = 3 \/ z' = 4 \/ z' = 5 \/ z' = 6
                   \/ z' = 7 \/ z' = 8 \/ z' = 9 \/ z' = 10 \/ z' = 11
                   \/ z' = 12)%Z) by lia.
    repeat (destruct Hc as [->|Hc]);
      repeat (destruct Hc' as [->|Hc']); subst; cbn;
      intros H; (reflexivity || discriminate H).
  - intros z Hz. rewrite convertMonth_of_Z.
    destruct (Z.leb_spec 0 z) as [H0|]; [|reflexivity].
    destruct (Z.eq_dec z 0) as [->|Hn]; [reflexivity|].
    apply nth_overflow. change (List.length months) with 13%nat. lia.
  - intros q Hq. unfold convertMonth, index_num. now rewrite Hq.
  - reflexivity.
Qed.

Lemma convertMonth_range_witness :
  exists name, convertMonth (of_Z 11) = VStr name /\ name <> "".
Proof. apply (proj1 convertMonth_range 11%Z). lia. Defined.

(** X10.  Outside the scores [calculateScore] can give, [calculateGrade]
    has no letter below 0 and from 120 on, where it returns [undefined] (as
    it does on [NaN] and the infinities); the scores 100 to 119 all give
    Z. *)
Theorem calculateGrade_out_of_range z :
  (calculateGrade (of_Z z) = VUndef <-> (z < 0 \/ 120 <= z)%Z)
  /\ ((100 <= z < 120)%Z -> calculateGrade (of_Z z) = VStr "Z")
  /\ calculateGrade NaN = VUndef
  /\ calculateGrade (Inf false) = VUndef
  /\ calculateGrade (Inf true) = VUndef.
Proof.
  rewrite calculateGrade_of_Z.
  split; [|split; [|repeat split]].
  - destruct (Z.leb_spec 0 (z / 20)) as [Hq|Hq].
    + assert (H0 : (0 <= z)%Z).
      { destruct (Z_lt_le_dec z 0) as [Hn|]; [|assumption].
        assert (z / 20 < 0)%Z by (apply Z.div_lt_upper_bound; lia). lia. }
      assert (H1 := Z.mul_div_le z 20 ltac:(lia)).
      assert (H2 := Z.mul_succ_div_gt z 20 ltac:(lia)). unfold Z.succ in H2.
      destruct (Z_lt_le_dec (z / 20) 6) as [H6|H6].
      * assert (Hc : (z / 20 = 0 \/ z / 20 = 1 \/ z / 20 = 2 \/ z / 20 = 3
                      \/ z / 20 = 4 \/ z / 20 = 5)%Z) by lia.
        split; [|lia].
        destruct Hc as [E|[E|[E|[E|[E|E]]]]]; rewrite E; discriminate.
      * split; [lia|]. intros _. apply nth_overflow.
        change (List.length grades) with 6%nat. lia.
    + split; [|reflexivity]. intros _. left.
      destruct (Z_lt_le_dec z 0) as [|Hn]; [assumption|].
      assert (0 <= z / 20)%Z by (apply Z.div_pos; lia). lia.
  - intros Hz.
    assert (E : (z / 20 = 5)%Z).
    { symmetry. apply (Z.div_unique z 20 5 (z - 100)); lia. }
    rewrite E. reflexivity.
Qed.

(** ** Extremes and monotonicity of the score *)

Lemma round_ratio_bounds p n :
  (0 < n)%Z ->
  (2 * n * ((200 * p + n) / (2 * n)) <= 200 * p + n
   < 2 * n * ((200 * p + n) / (2 * n) + 1))%Z.
Proof.
  intros Hn.
  assert (H1 := Z.mul_div_le (200 * p + n) (2 * n) ltac:(lia)).
  assert (H2 := Z.mul_succ_div_gt (200 * p + n) (2 * n) ltac:(lia)).
  unfold Z.succ in H2. lia.
Qed.

(** X11.  With fewer than 200 scorable metrics, the score is 100 exactly
    when every scorable metric passes, and 0 exactly when none does.  (From
    200 metrics on, one failure still rounds to 100.) *)
Theorem calculateScore_extremes results N P :
  wf results = true ->
  count scorable (metric_values results) = N ->
  count passing (metric_values results) = P ->
  (0 < N < 200)%Z ->
  (calculateScore results = Ok (of_Z 100) <-> P = N)
  /\ (calculateScore results = Ok (of_Z 0) <-> P = 0%Z).
Proof.
  intros Hwf HN HP Hn.
  pose proof (passing_le_scorable (metric_values results)) as Hle.
  pose proof (count_nonneg passing (metric_values results)) as Hge.
  rewrite calculateScore_counts by assumption.
  rewrite HN, HP in *. rewrite round_ratio by lia.
  pose proof (round_ratio_bounds P N ltac:(lia)) as Hb.
  assert (Hinj : forall a b : Z, Ok (of_Z a) = Ok (of_Z b) <-> a = b).
  { intros a b. split; [|now intros ->]. unfold of_Z, inject_Z.
    now intros [= ->]. }
  rewrite !Hinj. split; split; intros H.
  - rewrite H in Hb. lia.
  - subst P. symmetry. apply Z.div_unique with (r := N); lia.
  - rewrite H in Hb. lia.
  - subst P. apply Z.div_small. lia.
Qed.

Lemma calculateScore_extremes_witness :
  (calculateScore three_true_two_strings = Ok (of_Z 100) <-> 3%Z = 3%Z)
  /\ (calculateScore three_true_two_strings = Ok (of_Z 0) <-> 3%Z = 0%Z).
Proof.
  apply (calculateScore_extremes three_true_two_strings 3 3);
    (reflexivity || lia).
Defined.

Example many_metrics_round_up :
  Math_round (num_div (num_mul (of_Z 199) (of_Z 100)) (of_Z 200)) = of_Z 100.
Proof. reflexivity. Qed.

(** X12.  Among result sets with the same number of scorable metrics, one
    with more passing metrics never has the lower score. *)
Theorem calculateScore_monotone results results' :
  wf results = true -> wf results' = true ->
  count scorable (metric_values results)
  = count scorable (metric_values results') ->
  (0 < count scorable (metric_values results))%Z ->
  (count passing (metric_values results)
   <= count passing (metric_values results'))%Z ->
  exists s s',
    calculateScore results = Ok (of_Z s)
    /\ calculateScore results' = Ok (of_Z s')
    /\ (s <= s')%Z.
Proof.
  intros Hwf Hwf' HN Hpos HP.
  rewrite !calculateScore_counts by assumption. rewrite <- HN.
  rewrite !round_ratio by assumption.
  do 2 eexists. split; [reflexivity|]. split; [reflexivity|].
  apply Z.div_le_mono; lia.
Qed.

Lemma calculateScore_monotone_witness :
  exists s s',
    calculateScore
      (VObj [("DNS", VObj [("DNSSEC", VBool false); ("CAA", VBool true)])])
    = Ok (of_Z s)
    /\ calculateScore
         (VObj [("DNS", VObj [("DNSSEC", VBool true); ("CAA", VBool true)])])
       = Ok (of_Z s')
    /\ (s <= s')%Z.
Proof.
  apply calculateScore_monotone; (reflexivity || (vm_compute; congruence)).
Defined.

(** ** More on [sortCards] *)

Lemma Array_sort_sorted_id {A} (cmp : A -> A -> Z) l :
  StronglySorted (fun a b => (cmp a b <= 0)%Z) l -> Array_sort cmp l = l.
Proof.
  intros Hs. induction Hs as [|x l Hs IH Hx]; [reflexivity|].
  cbn [Array_sort]. rewrite IH. destruct l as [|y l]; [reflexivity|].
  cbn [insert]. inversion Hx as [|? ? Hy _]; subst.
  destruct (Z.leb_spec (cmp x y) 0); [reflexivity | lia].
Qed.

(** X13.  [sortCards] is idempotent: sorting sorted cards changes
    nothing. *)
Theorem sortCards_idempotent cards :
  Forall scored cards -> sortCards (sortCards cards) = sortCards cards.
Proof.
  intros Hs. unfold sortCards. apply Array_sort_sorted_id.
  apply (Array_sort_sorted compareCards scored); [| |assumption].
  - intros x y. rewrite !compareCards_le. apply bank_order_total.
  - intros x y z Hx Hy Hz. rewrite !compareCards_le.
    now apply bank_order_trans.
Qed.

Lemma sortCards_idempotent_witness :
  sortCards (sortCards ranking_example) = sortCards ranking_example.
Proof.
  apply (sortCards_idempotent ranking_example). repeat constructor.
Defined.





(** ** More on [processResults] *)

(** X15.  The two "Disabled" metrics of TLS are always booleans, the
    negation of the truthiness of the protocol flag: a flag that is absent
    counts as a disabled protocol, that is, as a pass. *)
Theorem tls_disabled_metrics
    nts stn bank results response results' flag11 flag10 :
  processResults nts stn bank results = Ok (response, results') ->
  ref results .> "tlsProtocols" .> "data" .> "1.1" = Ok flag11 ->
  ref results .> "tlsProtocols" .> "data" .> "1.0" = Ok flag10 ->
  ref response .> "TLS" .> "TLS 1.1 Disabled" = Ok (VBool (negb (truthy flag11)))
  /\ ref response .> "TLS" .> "TLS 1.0 Disabled"
     = Ok (VBool (negb (truthy flag10)))
  /\ (flag11 = VUndef ->
      ref response .> "TLS" .> "TLS 1.1 Disabled" = Ok (VBool true))
  /\ (flag10 = VUndef ->
      ref response .> "TLS" .> "TLS 1.0 Disabled" = Ok (VBool true)).
Proof.
  intros H H11 H10. unfold processResults in H. bind_inv H.
  injection H as <- _. cbn [ref bind] in H11, H10.
  rewrite H11 in E6. rewrite H10 in E7.
  injection E6 as <-. injection E7 as <-.
  split; [reflexivity|]. split; [reflexivity|].
  split; intros ->; reflexivity.
Qed.

Lemma tls_disabled_metrics_witness :
  exists response results',
    processResults (fun _ => "") (fun _ => NaN)
      (sample_bank sample_results) sample_results = Ok (response, results')
    /\ ref response .> "TLS" .> "TLS 1.1 Disabled"
       = Ok (VBool (negb (truthy (VBool false)))).
Proof.
  do 2 eexists. split; [reflexivity|].
  destruct (tls_disabled_metrics (fun _ => "") (fun _ => NaN)
              (sample_bank sample_results) sample_results _ _
              (VBool false) (VBool false) eq_refl eq_refl eq_refl)
    as [H _].
  exact H.
Defined.

(** X16.  [processResults] changes its argument in one place: afterwards
    the argument has the property "Miscellaneous Headers", whose three
    values are those of the header checks of the global [bank] (the empty
    string when the check passed, the leaked [data.value] otherwise), and
    every other property reads as before. *)
Theorem processResults_argument_after
    nts stn bank results response results' :
  processResults nts stn bank results = Ok (response, results') ->
  (forall k, k <> "Miscellaneous Headers" -> get results' k = get results k)
  /\ exists server poweredBy aspVersion,
       leaked bank "server" = Ok server
       /\ leaked bank "poweredBy" = Ok poweredBy
       /\ leaked bank "aspVersion" = Ok aspVersion
       /\ get results' "Miscellaneous Headers"
          = Ok (VObj [("Server", server); ("X-Powered-By", poweredBy);
                      ("ASP.NET Version", aspVersion)]).
Proof.
  intros H. unfold processResults in H. bind_inv H.
  injection H as _ <-.
  apply bind_Ok in E. destruct E as (entry & E & Er).
  destruct (get_named_object results "upgradeToHttps" entry) as [o ->];
    [now apply not_index | reflexivity | assumption
    | now apply (get_Ok_present _ _ _ Er) |].
  cbn [set] in E19. injection E19 as <-. split.
  - intros k Hk. rewrite !get_object. f_equal.
    rewrite lookup_update.
    destruct (String.eqb_spec "Miscellaneous Headers" k); [congruence|].
    reflexivity.
  - exists v16, v17, v18. repeat split; try assumption.
    rewrite get_object, lookup_update. reflexivity.
Qed.

Lemma processResults_argument_after_witness :
  exists response results',
    processResults (fun _ => "") (fun _ => NaN)
      (sample_bank sample_results) sample_results = Ok (response, results')
    /\ get results' "hsts" = get sample_results "hsts".
Proof.
  do 2 eexists. split; [reflexivity|].
  destruct (processResults_argument_after (fun _ => "") (fun _ => NaN)
              (sample_bank sample_results) sample_results _ _ eq_refl)
    as [H _].
  apply H. discriminate.
Defined.

Lemma wf_get v k x : wf v = true -> get v k = Ok x -> wf x = true.
Proof.
  intros Hwf. destruct v; try discriminate; unfold get;
    match goal with
    | |- context [assoc k ?e] => destruct (assoc k e) as [y|] eqn:E
    end;
    try (intros [= <-]; apply assoc_In in E;
         eapply wf_entries; [exact Hwf | exact E]);
    destruct (k =? "length"); intros [= <-]; reflexivity.
Qed.

Lemma wf_path2 v k1 k2 x :
  wf v = true -> (get v k1 .> k2) = Ok x -> wf x = true.
Proof.
  intros Hwf H. apply bind_Ok in H. destruct H as (a & Ha & Hx).
  eapply wf_get; [|exact Hx]. eapply wf_get; eassumption.
Qed.

Lemma wf_path3 v k1 k2 k3 x :
  wf v = true -> (get v k1 .> k2 .> k3) = Ok x -> wf x = true.
Proof.
  intros Hwf H. apply bind_Ok in H. destruct H as (a & Ha & Hx).
  eapply wf_get; [|exact Hx]. eapply wf_path2; eassumption.
Qed.

Lemma wf_js_and a c x :
  wf a = true -> (forall y, c = Ok y -> wf y = true) ->
  js_and a c = Ok x -> wf x = true.
Proof.
  unfold js_and. destruct (truthy a); [intros _ H E; now apply H|].
  now intros Ha _ [= <-].
Qed.

Lemma wf_js_or a c x :
  wf a = true -> (forall y, c = Ok y -> wf y = true) ->
  js_or a c = Ok x -> wf x = true.
Proof.
  unfold js_or. destruct (truthy a); [now intros Ha _ [= <-]|].
  intros _ H E. now apply H.
Qed.

Lemma parseCsp_wf nts results csp v :
  wf results = true -> parseCsp nts results csp = Ok v -> wf v = true.
Proof.
  intros Hwf H. unfold parseCsp in H. bind_inv H. injection H as <-.
  repeat match goal with
    | J : js_or _ _ = Ok _ |- _ =>
        apply wf_js_or in J;
        [| first [reflexivity
                 | eapply (wf_path2 results); [exact Hwf | eassumption]]
         | intros y Hy; eapply (wf_path2 results); [exact Hwf | eassumption] ]
    end.
  cbn [wf map fst snd distinct existsb forallb String.eqb Ascii.eqb
       Bool.eqb negb andb orb].
  repeat match goal with
    | J : wf ?x = true |- context [wf ?x] => rewrite J
    end.
  reflexivity.
Qed.

Lemma count_In_pos f x l : In x l -> f x = true -> (0 < count f l)%Z.
Proof.
  induction l as [|y l IH]; [contradiction|].
  intros [->|Hin] Hx; rewrite count_cons.
  - rewrite Hx. pose proof (count_nonneg f l). lia.
  - specialize (IH Hin Hx). destruct (f y); lia.
Qed.

Lemma calculateGrade_letter z :
  (0 <= z <= 100)%Z ->
  exists letter,
    calculateGrade (of_Z z) = VStr letter /\ In (VStr letter) grades.
Proof.
  intros Hz. rewrite calculateGrade_of_Z.
  assert (H1 := Z.mul_div_le z 20 ltac:(lia)).
  assert (H2 := Z.mul_succ_div_gt z 20 ltac:(lia)). unfold Z.succ in H2.
  assert (Hc : (z / 20 = 0 \/ z / 20 = 1 \/ z / 20 = 2 \/ z / 20 = 3
                \/ z / 20 = 4 \/ z / 20 = 5)%Z) by lia.
  destruct Hc as [E|[E|[E|[E|[E|E]]]]]; rewrite E; cbn;
    eexists; (split; [reflexivity|]); cbn; tauto.
Qed.

Lemma processResults_wf nts stn bank results response results' :
  wf results = true ->
  processResults nts stn bank results = Ok (response, results') ->
  wf response = true
  /\ exists flag, In (js_not flag) (metric_values response).
Proof.
  intros Hwf H. unfold processResults in H. bind_inv H.
  injection H as <- _.
  assert (W3 : wf v3 = true).
  { apply bind_Ok in E3. destruct E3 as (r & Hr & E3).
    apply wf_js_and in E3; [assumption | now apply (wf_path2 results _ _ _ Hwf Hr)|].
    intros y Hy. apply bind_Ok in Hy. destruct Hy as (age & _ & [= <-]).
    reflexivity. }
  assert (W4 : wf v4 = true).
  { apply bind_Ok in E4. destruct E4 as (r & Hr & E4).
    apply wf_js_and in E4; [assumption | now apply (wf_path2 results _ _ _ Hwf Hr)|].
    intros y Hy. now apply (wf_path3 results _ _ _ _ Hwf Hy). }
  assert (W12 : wf v12 = true).
  { apply bind_Ok in E12. destruct E12 as (data & _ & E12).
    now apply (parseCsp_wf nts results data). }
  repeat match goal with
    | J : bind (get results _) _ = Ok _ |- _ =>
        apply (wf_path2 results _ _ _ Hwf) in J
    | J : bind (bind (get results _) _) _ = Ok _ |- _ =>
        apply (wf_path3 results _ _ _ _ Hwf) in J
    end.
  split.
  - cbn [wf map fst snd distinct existsb forallb String.eqb Ascii.eqb
         Bool.eqb negb andb orb js_not].
    repeat match goal with
      | J : wf ?x = true |- context [wf ?x] => rewrite J
      end.
    reflexivity.
  - exists v6. cbn. tauto.
Qed.

(** X17.  Whatever [processResults] returns has a score: [calculateScore]
    gives an integer between 0 and 100 on it, never [NaN], because the two
    "Disabled" metrics of TLS are always counted; and the grade of that
    score is one of the six letters. *)
Theorem processResults_score nts stn bank results response results' :
  wf results = true ->
  processResults nts stn bank results = Ok (response, results') ->
  exists s letter,
    calculateScore response = Ok (of_Z s)
    /\ (0 <= s <= 100)%Z
    /\ calculateGrade (of_Z s) = VStr letter
    /\ In (VStr letter) grades.
Proof.
  intros Hwf H.
  destruct (processResults_wf _ _ _ _ _ _ Hwf H) as [Hwfr [flag Hin]].
  pose proof (count_In_pos scorable _ _ Hin eq_refl) as Hpos.
  pose proof (passing_le_scorable (metric_values response)) as Hle.
  pose proof (count_nonneg passing (metric_values response)) as Hge.
  set (N := count scorable (metric_values response)) in *.
  set (P := count passing (metric_values response)) in *.
  assert (Hs : (0 <= (200 * P + N) / (2 * N) <= 100)%Z).
  { split; [apply Z.div_pos; lia|].
    apply Z.lt_succ_r. apply Z.div_lt_upper_bound; lia. }
  destruct (calculateGrade_letter _ Hs) as (letter & Hg & Hl).
  exists ((200 * P + N) / (2 * N))%Z, letter.
  split; [|split; [exact Hs | split; assumption]].
  rewrite calculateScore_counts by assumption.
  fold N P. now rewrite round_ratio.
Qed.

Lemma processResults_score_witness :
  exists s letter,
    calculateScore results_with_gap = Ok (of_Z s)
    /\ (0 <= s <= 100)%Z
    /\ calculateGrade (of_Z s) = VStr letter
    /\ In (VStr letter) grades.
Proof.
  apply (processResults_score (fun _ => "") (fun _ => NaN)
           (sample_bank raw_hsts_without_result) raw_hsts_without_result
           results_with_gap
           (VObj (update (props raw_hsts_without_result)
                    "Miscellaneous Headers"
                    (VObj [("Server", VStr "nginx"); ("X-Powered-By", VStr "");
                           ("ASP.NET Version", VStr "")]))));
    reflexivity.
Defined.

(** *** What [processResults] throws *)

Lemma bind_Throw {A B} (c : res A) (k : A -> res B) e :
  bind c k = Throw e ->
  c = Throw e \/ exists a, c = Ok a /\ k a = Throw e.
Proof. destruct c; simpl; [eauto | intros [= ->]; now left]. Qed.

Lemma get_Throw v k e : get v k = Throw e -> e = TypeError.
Proof.
  destruct v; unfold get;
    repeat match goal with
      | |- context [match ?c with _ => _ end] => destruct c
      end; congruence.
Qed.

Lemma set_Throw v k x e : set v k x = Throw e -> e = TypeError.
Proof. destruct v; simpl; congruence. Qed.

Lemma path2_Throw v k1 k2 e : (get v k1 .> k2) = Throw e -> e = TypeError.
Proof.
  intros H. apply bind_Throw in H. destruct H as [H|(a & _ & H)];
    now apply get_Throw in H.
Qed.

Lemma path3_Throw v k1 k2 k3 e :
  (get v k1 .> k2 .> k3) = Throw e -> e = TypeError.
Proof.
  intros H. apply bind_Throw in H. destruct H as [H|(a & _ & H)];
    [now apply path2_Throw in H | now apply get_Throw in H].
Qed.

Lemma path4_Throw v k1 k2 k3 k4 e :
  (get v k1 .> k2 .> k3 .> k4) = Throw e -> e = TypeError.
Proof.
  intros H. apply bind_Throw in H. destruct H as [H|(a & _ & H)];
    [now apply path3_Throw in H | now apply get_Throw in H].
Qed.

Lemma js_and_Throw a c e :
  js_and a c = Throw e -> c = Throw e.
Proof. unfold js_and. destruct (truthy a); congruence. Qed.

Lemma js_or_Throw a c e :
  js_or a c = Throw e -> c = Throw e.
Proof. unfold js_or. destruct (truthy a); congruence. Qed.

Lemma call_join_Throw nts v sep e :
  call_join nts v sep = Throw e -> e = TypeError.
Proof. destruct v; simpl; congruence. Qed.

Lemma parseCsp_Throw nts results csp e :
  parseCsp nts results csp = Throw e -> e = TypeError.
Proof.
  intros H. unfold parseCsp in H. cbn [ref bind] in H.
  repeat match type of H with
    | bind _ _ = Throw _ =>
        apply bind_Throw in H; destruct H as [H|(? & ? & H)]
    end;
    try (now apply get_Throw in H);
    try (now apply path2_Throw in H);
    try (apply js_and_Throw in H; now apply path2_Throw in H);
    try (apply js_or_Throw in H; now apply path2_Throw in H);
    try discriminate H.
  destruct (truthy _); [|discriminate H].
  apply bind_Throw in H. destruct H as [H|(joined & _ & H)].
  - apply bind_Throw in H. destruct H as [H|(fa & _ & H)];
      [now apply get_Throw in H | now apply call_join_Throw in H].
  - cbn [for_each bind] in H.
    repeat match type of H with
      | context [includes ?s ?x] => destruct (includes s x); cbn [bind] in H
      end; discriminate H.
Qed.

Lemma leaked_Throw bank k e : leaked bank k = Throw e -> e = TypeError.
Proof.
  intros H. unfold leaked in H. cbn [ref bind] in H.
  apply bind_Throw in H. destruct H as [H|(p & _ & H)];
    [now apply path3_Throw in H|].
  destruct (truthy p); [discriminate H | now apply path4_Throw in H].
Qed.

(** The only exception [processResults] throws is a [TypeError]. *)
Lemma processResults_Throw nts stn bank results e :
  processResults nts stn bank results = Throw e -> e = TypeError.
Proof.
  intros H. unfold processResults in H. cbn [ref bind] in H.
  repeat match type of H with
    | bind _ _ = Throw _ =>
        apply bind_Throw in H; destruct H as [H|(? & ? & H)];
        cbn [set bind] in H
    | js_and _ _ = Throw _ => apply js_and_Throw in H
    end;
    first [ now apply get_Throw in H
          | now apply leaked_Throw in H
          | now apply set_Throw in H
          | now apply parseCsp_Throw in H
          | discriminate H ].
Qed.

Lemma get_string_length s :
  get (VStr s) "length" = Ok (VNum (of_Z (Z.of_nat (String.length s)))).
Proof.
  unfold get.
  assert (E : assoc "length" (entries (VStr s)) = None).
  { apply assoc_None. simpl. rewrite map_fst_combine.
    - unfold index_keys. intros Hin. apply in_map_iff in Hin.
      destruct Hin as [i [Hi _]]. now apply (decimal_not_length i).
    - unfold index_keys, chars. rewrite !length_map, length_seq.
      clear. induction s; simpl; congruence. }
  now rewrite E.
Qed.

Lemma parseCsp_string nts results csp s :
  get csp "frame-ancestors" = Ok (VStr s) -> s <> "" ->
  parseCsp nts results csp = Throw TypeError.
Proof.
  intros Hfa Hs. unfold parseCsp. cbn [ref bind]. rewrite Hfa. cbn [bind].
  unfold js_and. cbn [truthy].
  destruct (String.eqb_spec s "") as [E|_]; [contradiction|]. cbn [negb bind].
  rewrite get_string_length. unfold of_Z. cbn [bind truthy].
  rewrite Qis_zero_inject.
  destruct s as [|c s]; [contradiction|].
  reflexivity.
Qed.

(** X18.  A [frame-ancestors] directive that the scanner reports as one
    non-empty string, not as a list of sources, makes [processResults]
    throw a [TypeError]: a string has a [length] and no [join]. *)
Theorem processResults_string_directive nts stn bank results data s :
  (ref results .> "contentSecurityPolicy" .> "data") = Ok data ->
  get data "frame-ancestors" = Ok (VStr s) ->
  s <> "" ->
  processResults nts stn bank results = Throw TypeError.
Proof.
  intros Hdata Hfa Hs.
  pose proof (parseCsp_string nts results data s Hfa Hs) as Hcsp.
  destruct (processResults nts stn bank results) as [r|e] eqn:E.
  - exfalso. unfold processResults in E. bind_inv E.
    cbn [ref bind] in Hdata.
    match goal with
    | J : context [parseCsp] |- _ =>
        apply bind_Ok in J; destruct J as (d & Hd & J);
        rewrite Hdata in Hd; injection Hd as <-;
        rewrite Hcsp in J; discriminate J
    end.
  - now rewrite (processResults_Throw _ _ _ _ _ E).
Qed.

Lemma processResults_string_directive_witness :
  processResults (fun _ => "") (fun _ => NaN)
    (sample_bank raw_string_directive) raw_string_directive
  = Throw TypeError.
Proof.
  apply (processResults_string_directive _ _ _ _
           (VObj [("frame-ancestors", VStr "'none'")]) "'none'");
    [reflexivity | reflexivity | discriminate].
Defined.

(** ** More on [getHistory] *)












(** ** More on the archive written by [createWebsite] *)







(** Only the countries are ordered: the banks of a country are written in
    the order they have in [fullResults]. *)
Example archive_keeps_bank_order :
  createWebsite_archive [] 2026 11
    (VObj [("nz", VObj [("A", VObj []); ("B", VObj [])])])
  <> createWebsite_archive [] 2026 11
       (VObj [("nz", VObj [("B", VObj []); ("A", VObj [])])]).
Proof. intros H. vm_compute in H. discriminate H. Qed.

Lemma append_inj_suffix a1 a2 b1 b2 :
  String.length b1 = String.length b2 ->
  a1 ++ b1 = a2 ++ b2 -> a1 = a2 /\ b1 = b2.
Proof.
  revert a2. induction a1 as [|c a1 IH]; intros [|c2 a2] Hl H; simpl in H.
  - now split.
  - exfalso. rewrite H in Hl. simpl in Hl. rewrite length_append in Hl. lia.
  - exfalso. rewrite <- H in Hl. simpl in Hl. rewrite length_append in Hl. lia.
  - injection H as -> H. destruct (IH a2 Hl H) as [-> ->]. now split.
Qed.

Lemma yearMonth_padded year month :
  yearMonth year month = decimal year ++ paddedMonth month.
Proof. reflexivity. Qed.

Lemma paddedMonth_length month :
  (month < 100)%nat -> String.length (paddedMonth month) = 2%nat.
Proof.
  intros H.
  assert (E : forallb (fun m => (String.length (paddedMonth m) =? 2)%nat)
                (seq 0 100) = true) by (vm_compute; reflexivity).
  rewrite forallb_forall in E.
  apply Nat.eqb_eq. apply E. apply in_seq. lia.
Qed.

Lemma paddedMonth_inj m1 m2 :
  (m1 < 100)%nat -> (m2 < 100)%nat ->
  paddedMonth m1 = paddedMonth m2 -> m1 = m2.
Proof.
  intros H1 H2 E.
  assert (C : forallb (fun a =>
                forallb (fun b =>
                   negb (paddedMonth a =? paddedMonth b) || (a =? b)%nat)
                  (seq 0 100))
                (seq 0 100) = true) by (vm_compute; reflexivity).
  rewrite forallb_forall in C.
  assert (C1 := C m1 ltac:(apply in_seq; lia)).
  rewrite forallb_forall in C1.
  assert (C2 := C1 m2 ltac:(apply in_seq; lia)).
  rewrite E, String.eqb_refl in C2. simpl in C2.
  now apply Nat.eqb_eq.
Qed.

(** X23.  The archive names of different months differ, and so do their
    scan dates: the month is always written with two digits, so the year
    and the month can be read back from the name. *)
Theorem yearMonth_injective y1 m1 y2 m2 :
  (m1 < 100)%nat -> (m2 < 100)%nat ->
  scanDate (yearMonth y1 m1 ++ ".json") = scanDate (yearMonth y2 m2 ++ ".json") ->
  y1 = y2 /\ m1 = m2.
Proof.
  intros H1 H2 E.
  rewrite !scanDate_archive in E by apply no_dot_yearMonth.
  rewrite !yearMonth_padded in E.
  apply append_inj_suffix in E;
    [|now rewrite !paddedMonth_length].
  destruct E as [Ey Em]. split.
  - now apply decimal_inj.
  - now apply paddedMonth_inj.
Qed.

Lemma yearMonth_injective_witness : 2026%nat = 2026%nat /\ 3%nat = 3%nat.
Proof.
  apply (yearMonth_injective 2026 3 2026 3); [lia | lia | reflexivity].
Defined.

(** ** Renderer *)

Lemma for_each_Ok_In {A S} (l : list A) (body : A -> S -> res S) s s' a :
  for_each l body s = Ok s' -> In a l -> exists st st', body a st = Ok st'.
Proof.
  revert s. induction l as [|b l IH]; intros s H Hin; [destruct Hin|].
  cbn [for_each] in H. apply bind_Ok in H. destruct H as (s1 & Hb & H).
  destruct Hin as [->|Hin]; [now exists s, s1 | now apply (IH s1)].
Qed.

Lemma for_each_Throw_In {A S} (l : list A) (body : A -> S -> res S) s e :
  for_each l body s = Throw e ->
  exists a st, In a l /\ body a st = Throw e.
Proof.
  revert s. induction l as [|b l IH]; intros s H; [discriminate H|].
  cbn [for_each] in H. apply bind_Throw in H.
  destruct H as [H|(s1 & _ & H)].
  - exists b, s. split; [now left | exact H].
  - destruct (IH s1 H) as (a & st & Hin & Ha).
    exists a, st. split; [now right | exact Ha].
Qed.


Lemma forallb_false_In {A} (f : A -> bool) l :
  forallb f l = false -> exists x, In x l /\ f x = false.
Proof.
  induction l as [|a l IH]; [discriminate|]. cbn [forallb].
  destruct (f a) eqn:E; cbn [andb]; intros H.
  - destruct (IH H) as (x & Hin & Hx). exists x. split; [now right | exact Hx].
  - exists a. split; [now left | exact E].
Qed.


Lemma htmlEncode_Throw v e : htmlEncode v = Throw e -> e = TypeError.
Proof.
  destruct v; intros H; (discriminate H || now injection H as <-).
Qed.


Lemma renderMetric_bad nts results category metric main x :
  ref results .> category .> metric = Ok x ->
  is_metric_value x = false ->
  renderMetric nts results category metric main = Throw TypeError.
Proof.
  intros Hx Hm. unfold renderMetric. rewrite Hx. cbn [bind].
  destruct x; try discriminate Hm; reflexivity.
Qed.

Lemma renderMetric_Throw nts results category metric main e :
  renderMetric nts results category metric main = Throw e -> e = TypeError.
Proof.
  intros H. unfold renderMetric in H. cbn [ref bind] in H.
  apply bind_Throw in H. destruct H as [H|(x & _ & H)];
    [now apply path2_Throw in H|].
  apply bind_Throw in H. destruct H as [H|([grade check] & _ & H)];
    [|discriminate H].
  destruct (typeof x =? "boolean"); [discriminate H|].
  apply bind_Throw in H. destruct H as [H|(check & _ & H)];
    [|discriminate H].
  destruct (strict_eq_string x ""); [discriminate H|].
  now apply htmlEncode_Throw in H.
Qed.

Lemma renderCategory_Throw nts results category main e :
  renderCategory nts results category main = Throw e -> e = TypeError.
Proof.
  intros H. unfold renderCategory in H.
  apply bind_Throw in H. destruct H as [H|(metrics & _ & H)];
    [now apply get_Throw in H|].
  apply bind_Throw in H. destruct H as [H|(main' & _ & H)];
    [|discriminate H].
  apply for_each_Throw_In in H. destruct H as (m & st & _ & H).
  now apply renderMetric_Throw in H.
Qed.

Lemma renderScan_Throw nts history date main e :
  renderScan nts history date main = Throw e -> e = TypeError.
Proof.
  intros H. unfold renderScan in H.
  repeat (apply bind_Throw in H; destruct H as [H|(? & _ & H)];
          [now apply get_Throw in H|]).
  discriminate H.
Qed.

(** The only exception [makeBankMain] throws is a [TypeError]. *)
Lemma makeBankMain_Throw nts results history e :
  makeBankMain nts results history = Throw e -> e = TypeError.
Proof.
  intros H. unfold makeBankMain in H.
  apply bind_Throw in H. destruct H as [H|(main & _ & H)].
  - apply for_each_Throw_In in H. destruct H as (c & st & _ & H).
    now apply renderCategory_Throw in H.
  - apply bind_Throw in H. destruct H as [H|(main' & _ & H)];
      [|discriminate H].
    destruct (truthy history); [|discriminate H].
    apply bind_Throw in H. destruct H as [H|(main' & _ & H)];
      [|discriminate H].
    apply for_each_Throw_In in H. destruct H as (d & st & _ & H).
    now apply renderScan_Throw in H.
Qed.

Lemma metric_values_In results x :
  In x (metric_values results) <->
  exists category metrics metric,
    In (category, metrics) (entries results)
    /\ In (metric, x) (entries metrics).
Proof.
  unfold metric_values. rewrite in_flat_map. split.
  - intros ([c metrics] & Hc & Hx). cbn [snd] in Hx.
    apply in_map_iff in Hx. destruct Hx as ([m y] & E & Hm).
    cbn [snd] in E. subst y. now exists c, metrics, m.
  - intros (c & metrics & m & Hc & Hm). exists (c, metrics).
    split; [exact Hc|]. cbn [snd]. apply in_map_iff. now exists (m, x).
Qed.

Lemma metric_path results category metrics metric x :
  wf results = true ->
  In (category, metrics) (entries results) ->
  In (metric, x) (entries metrics) ->
  ref results .> category .> metric = Ok x.
Proof.
  intros Hwf Hc Hm. cbn [ref bind].
  rewrite (get_entries results category metrics Hwf Hc). cbn [bind].
  apply get_entries; [|exact Hm]. now apply (wf_entries results category).
Qed.



(** X25.  [makeBankMain] throws a [TypeError] as soon as one metric of the
    results is neither a boolean nor a string ([undefined], [null], a
    number, an array, an object), whatever the history: the value goes to
    [htmlEncode]. *)
Theorem makeBankMain_bad_metric nts results history :
  wf results = true ->
  normalized results = false ->
  makeBankMain nts results history = Throw TypeError.
Proof.
  intros Hwf Hn. unfold normalized in Hn.
  apply forallb_false_In in Hn. destruct Hn as (x & Hin & Hx).
  apply metric_values_In in Hin. destruct Hin as (c & metrics & m & Hc & Hm).
  pose proof (metric_path results c metrics m x Hwf Hc Hm) as Hpath.
  destruct (makeBankMain nts results history) as [main|e] eqn:E.
  - exfalso. unfold makeBankMain in E.
    apply bind_Ok in E. destruct E as (main1 & Hloop & _).
    apply (for_each_Ok_In _ _ _ _ c) in Hloop;
      [|unfold keys_of; apply in_map_iff; now exists (c, metrics)].
    destruct Hloop as (st & st' & Hcat). unfold renderCategory in Hcat.
    rewrite (get_entries results c metrics Hwf Hc) in Hcat. cbn [bind] in Hcat.
    apply bind_Ok in Hcat. destruct Hcat as (main2 & Hloop & _).
    apply (for_each_Ok_In _ _ _ _ m) in Hloop;
      [|unfold keys_of; apply in_map_iff; now exists (m, x)].
    destruct Hloop as (st1 & st1' & Hmet).
    rewrite (renderMetric_bad nts results c m st1 x Hpath Hx) in Hmet.
    discriminate Hmet.
  - now rewrite (makeBankMain_Throw _ _ _ _ E).
Qed.

Lemma makeBankMain_bad_metric_witness :
  makeBankMain (fun _ => "") results_with_gap VUndef = Throw TypeError.
Proof.
  apply makeBankMain_bad_metric; reflexivity.
Defined.

(** *** Dates of the history *)







(** From the year 10000 on the name has more than four digits of year, and
    the year is cut to its first four digits. *)
Example renderScan_year_10000 :
  renderScan (fun _ => "100")
    (VObj [(yearMonth (10 * 1000) 11,
            VObj [("score", VNum (of_Z 100)); ("grade", VStr "Z")])])
    (yearMonth (10 * 1000) 11) ""
  = Ok ("<div class=history>" ++
        "<div class=" ++ double_quote ++ "grade Z" ++ double_quote ++ ">" ++
        "100</div>" ++ "<p>November 1000</p>" ++ "</div>" ++ newline).
Proof. vm_compute. reflexivity. Qed.

(** *** Headings *)

Lemma GetSubstitution_plain matched before after r :
  has_char "$" r = false -> GetSubstitution matched before after r = r.
Proof.
  induction r as [|a r IH]; [reflexivity|].
  cbn [has_char GetSubstitution]. intros H.
  apply orb_false_iff in H. destruct H as [Ha Hr].
  rewrite Ha, IH by assumption. reflexivity.
Qed.

(** X27.  A category name without a dollar sign is put into the heading of
    its section as it is; it is not encoded the way the metric values
    are. *)
Theorem category_heading category :
  has_char "$" category = false ->
  String_replace categoryHtmlTop "$category" category
  = "<section>" ++ newline ++ "<div class=top>" ++ category ++ "</div>"
    ++ newline.
Proof.
  intros H. unfold String_replace.
  assert (E : indexOf categoryHtmlTop "$category" = 25%Z)
    by (vm_compute; reflexivity).
  rewrite E. cbn [Z.ltb Z.compare].
  rewrite GetSubstitution_plain by assumption.
  reflexivity.
Qed.

Lemma category_heading_witness :
  String_replace categoryHtmlTop "$category" "<b>TLS</b>"
  = "<section>" ++ newline ++ "<div class=top>" ++ "<b>TLS</b>" ++ "</div>"
    ++ newline.
Proof. apply category_heading. reflexivity. Defined.

(** *** Explanations *)

Lemma calculateGrade_cases score :
  calculateGrade score = VUndef \/ In (calculateGrade score) grades.
Proof.
  unfold calculateGrade.
  destruct (Math_floor (num_div score (of_Z 20))) as [| |q];
    [now left | now left |].
  unfold index_num.
  destruct (Qeq_bool q (inject_Z (Qfloor q)) && (0 <=? Qfloor q)%Z);
    [|now left].
  destruct (nth_in_or_default (Z.to_nat (Qfloor q)) grades VUndef) as [H|H];
    [now right | now left].
Qed.

(** X28.  Every grade [calculateGrade] gives has an explanation, a
    different one for each letter; when the score has no grade
    ([undefined]), [getExplanation] returns [undefined] as well. *)
Theorem getExplanation_of_grade nts stn :
  (forall score,
     getExplanation nts stn (calculateGrade score) = VUndef
     <-> calculateGrade score = VUndef)
  /\ (forall score score',
        getExplanation nts stn (calculateGrade score)
        = getExplanation nts stn (calculateGrade score') ->
        calculateGrade score = calculateGrade score').
Proof.
  split.
  - intros score.
    destruct (calculateGrade_cases score) as [->|Hin].
    + split; reflexivity.
    + cbn [In grades] in Hin.
      repeat (destruct Hin as [<-|Hin];
              [split; intros H; discriminate H|]).
      destruct Hin.
  - intros score score'.
    destruct (calculateGrade_cases score) as [->|Hin];
      destruct (calculateGrade_cases score') as [->|Hin'];
      cbn [In grades] in *;
      repeat match goal with
        | H : _ \/ _ |- _ => destruct H as [<-|H]
        | H : False |- _ => destruct H
        end;
      intros H; (reflexivity || discriminate H).
Qed.
